(** * Shallow embedding of the Fresh 1.x -> 2.x updater (update/src/update.ts)

    The syntax tree that ts-morph exposes is modelled as a rose tree of
    [node]s; a reference to a node held by the TypeScript code is modelled
    as a [path] (child indices from the root of the tree being edited).
    Tree edits done through ts-morph ([replaceWithText], [addArgument],
    [insertVariableStatement], ...) are functional updates at a path. *)

From Stdlib Require Import String Ascii List Bool Arith Lia Permutation.
Import ListNotations.
Open Scope string_scope.

(** ** Strings *)

Definition chr (n : nat) : string := String (ascii_of_nat n) EmptyString.
Definition nl : string := chr 10.
Definition dq : string := chr 34.

Fixpoint concat_with (sep : string) (xs : list string) : string :=
  match xs with
  | [] => ""
  | [x] => x
  | x :: xs' => x ++ sep ++ concat_with sep xs'
  end.

(** [s.startsWith(p)] *)
Definition starts_with (p s : string) : bool := String.prefix p s.

(** [s.includes(p)] *)
Fixpoint includes (p s : string) : bool :=
  starts_with p s ||
  match s with
  | EmptyString => false
  | String _ s' => includes p s'
  end.

(** [s.endsWith(p)] *)
Definition ends_with (p s : string) : bool :=
  Nat.leb (String.length p) (String.length s) &&
  String.eqb (substring (String.length s - String.length p) (String.length p) s) p.

(** [s.slice(0, -k)] *)
Definition slice_drop_end (k : nat) (s : string) : string :=
  substring 0 (String.length s - k) s.

(** [s.replaceAll(p, "")]: leftmost, non-overlapping occurrences. *)
Fixpoint remove_all_aux (fuel : nat) (p s : string) : string :=
  match fuel with
  | 0 => s
  | S fuel' =>
    if starts_with p s
    then remove_all_aux fuel' p (substring (String.length p) (String.length s) s)
    else match s with
         | EmptyString => EmptyString
         | String c s' => String c (remove_all_aux fuel' p s')
         end
  end.

Definition remove_all (p s : string) : string :=
  match p with
  | EmptyString => s
  | _ => remove_all_aux (S (String.length s)) p s
  end.

Definition is_space (c : ascii) : bool :=
  let n := nat_of_ascii c in
  Nat.eqb n 32 || Nat.eqb n 9 || Nat.eqb n 10 || Nat.eqb n 11 || Nat.eqb n 12 || Nat.eqb n 13.

Fixpoint trim_start (s : string) : string :=
  match s with
  | EmptyString => EmptyString
  | String c s' => if is_space c then trim_start s' else s
  end.

Fixpoint rev_str (s : string) : string :=
  match s with
  | EmptyString => EmptyString
  | String c s' => rev_str s' ++ String c EmptyString
  end.

(** [s.trim()] (on the ASCII white space). *)
Definition trim (s : string) : string := rev_str (trim_start (rev_str (trim_start s))).

(** ** Syntax trees *)

Inductive kind : Type :=
| KIdentifier (s : string)
| KNumericLiteral (s : string)
| KPropertyAccessExpression          (** children: [expression; name] *)
| KCallExpression                    (** children: callee :: arguments *)
| KAwaitExpression                   (** children: [expression] *)
| KBinaryExpression (op : string)    (** children: [left; right] *)
| KExpressionStatement               (** children: [expression] *)
| KReturnStatement                   (** children: [] or [expression] *)
| KVariableStatement (dk : string)   (** children: declarations *)
| KVariableDeclaration (name : string) (** children: [] or [initializer] *)
| KBlock                             (** children: statements *)
| KIfStatement                       (** children: [cond; then] or [cond; then; else] *)
| KOther (kindName : string) (text : string).
  (** any other node: its kind name and its own source text *)

#[local] Set Warnings "-register-all".
Inductive node : Type := Node (k : kind) (cs : list node).

Definition path := list nat.

Definition node_kind (n : node) : kind := let (k, _) := n in k.
Definition node_children (n : node) : list node := let (_, cs) := n in cs.

(** [getKindName()] *)
Definition kind_name (k : kind) : string :=
  match k with
  | KIdentifier _ => "Identifier"
  | KNumericLiteral _ => "NumericLiteral"
  | KPropertyAccessExpression => "PropertyAccessExpression"
  | KCallExpression => "CallExpression"
  | KAwaitExpression => "AwaitExpression"
  | KBinaryExpression _ => "BinaryExpression"
  | KExpressionStatement => "ExpressionStatement"
  | KReturnStatement => "ReturnStatement"
  | KVariableStatement _ => "VariableStatement"
  | KVariableDeclaration _ => "VariableDeclaration"
  | KBlock => "Block"
  | KIfStatement => "IfStatement"
  | KOther kn _ => kn
  end.

(** [getText()]: the node's source text (without surrounding trivia). *)
Fixpoint text (n : node) : string :=
  let '(Node k cs) := n in
  let ts := map text cs in
  match k, ts with
  | KIdentifier s, _ => s
  | KNumericLiteral s, _ => s
  | KPropertyAccessExpression, [e; m] => e ++ "." ++ m
  | KCallExpression, f :: args => f ++ "(" ++ concat_with ", " args ++ ")"
  | KAwaitExpression, [e] => "await " ++ e
  | KBinaryExpression op, [l; r] => l ++ " " ++ op ++ " " ++ r
  | KExpressionStatement, [e] => e ++ ";"
  | KReturnStatement, [] => "return;"
  | KReturnStatement, [e] => "return " ++ e ++ ";"
  | KVariableStatement dk, ds => dk ++ " " ++ concat_with ", " ds ++ ";"
  | KVariableDeclaration x, [] => x
  | KVariableDeclaration x, [i] => x ++ " = " ++ i
  | KBlock, ss => "{ " ++ concat_with " " ss ++ " }"
  | KIfStatement, [c; t] => "if (" ++ c ++ ") " ++ t
  | KIfStatement, [c; t; e] => "if (" ++ c ++ ") " ++ t ++ " else " ++ e
  | KOther _ s, [] => s
  | KOther _ s, ts => s ++ " " ++ concat_with " " ts
  | _, ts => concat_with " " ts
  end.

Definition ident (s : string) : node := Node (KIdentifier s) [].
Definition num (s : string) : node := Node (KNumericLiteral s) [].
Definition prop (e : node) (m : string) : node :=
  Node KPropertyAccessExpression [e; ident m].
Definition call (f : node) (args : list node) : node := Node KCallExpression (f :: args).

(** The node ts-morph builds from the text ["ctx.info.remoteAddr"]. *)
Definition ctx_info_remoteAddr : node := prop (prop (ident "ctx") "info") "remoteAddr".

(** Navigation and in-place update at a path. *)
Fixpoint get (t : node) (p : path) : option node :=
  match p with
  | [] => Some t
  | i :: p' =>
    match nth_error (node_children t) i with
    | Some c => get c p'
    | None => None
    end
  end.

Fixpoint upd_nth {A} (i : nat) (f : A -> A) (xs : list A) : list A :=
  match i, xs with
  | _, [] => []
  | 0, x :: xs' => f x :: xs'
  | S i', x :: xs' => x :: upd_nth i' f xs'
  end.

Fixpoint upd (t : node) (p : path) (f : node -> node) : node :=
  match p with
  | [] => f t
  | i :: p' =>
    let '(Node k cs) := t in
    Node k (upd_nth i (fun c => upd c p' f) cs)
  end.

Definition set (t : node) (p : path) (n : node) : node := upd t p (fun _ => n).

(** [getParentIfKind(SyntaxKind.CallExpression)] is read at [removelast p]. *)
Definition parent_path (p : path) : path := removelast p.

(** [callExpression.addArgument("404")] *)
Definition add_argument (a : node) (n : node) : node :=
  match n with
  | Node KCallExpression cs => Node KCallExpression (app cs [a])
  | _ => n
  end.

(** ** [rewriteCtxMemberName]

    [rwMember n p t] runs the function on the node [n] found at path [p]
    of the tree [t] and returns the edited tree. *)
Fixpoint rwMember (n : node) (p : path) (t : node) : node :=
  match n with
  | Node KPropertyAccessExpression cs =>
    match cs with
    | [] => t
    | first :: _ =>
      let lst := last cs first in
      if String.eqb (text first) "ctx" && String.eqb (text lst) "remoteAddr" then
        (* node.getExpression().replaceWithText("ctx.info.remoteAddr") *)
        set t (app p [0]) ctx_info_remoteAddr
      else if String.eqb (text lst) "renderNotFound" then
        let t1 := set t (app p [pred (length cs)]) (ident "throw") in
        match p, get t1 (parent_path p) with
        | _ :: _, Some (Node KCallExpression _) =>
          upd t1 (parent_path p) (add_argument (num "404"))
        | _, _ => t1
        end
      else
        match first with
        | Node KPropertyAccessExpression _ => rwMember first (app p [0]) t
        | _ => t
        end
    end
  | _ => t
  end.

Definition rewriteCtxMemberName (t : node) (p : path) : node :=
  match get t p with
  | Some n => rwMember n p t
  | None => t
  end.

(** ** [getDescendantStatements]

    ts-morph's [handleNode]: a node that owns a statement list (a [Block])
    contributes each of its statements followed by the statements found in
    that statement's children; any other node contributes the statements
    found in its children.  [hn true] is [handleChildren], [hn false] is
    [handleNode]. *)
Fixpoint hn (children_only : bool) (n : node) (p : path) : list path :=
  let '(Node k cs) := n in
  let blk := negb children_only && match k with KBlock => true | _ => false end in
  (fix go (i : nat) (cs : list node) : list path :=
     match cs with
     | [] => []
     | c :: cs' =>
       app (if blk then app p [i] :: hn true c (app p [i]) else hn false c (app p [i]))
           (go (S i) cs')
     end) 0 cs.

Definition getDescendantStatements (n : node) (p : path) : list path := hn false n p.

Fixpoint node_size (n : node) : nat :=
  let '(Node _ cs) := n in S (list_sum (map node_size cs)).

(** ** [rewriteCtxMethods]

    The recursion is bounded by [fuel]; [rewriteCtxMethodsTop] starts it
    with the size of the tree, more than the depth of any recursive call. *)
Fixpoint rewriteCtxMethods (fuel : nat) (ps : list path) (t : node) : node :=
  match fuel with
  | 0 => t
  | S fuel' =>
    fold_left (fun t p =>
      match get t p with
      | None => t
      | Some (Node k cs) =>
        match k with
        | KPropertyAccessExpression => rewriteCtxMemberName t p
        | KReturnStatement =>
          match cs with
          | [] => t
          | _ => rewriteCtxMethods fuel' [app p [0]] t
          end
        | KVariableStatement _ =>
          fold_left (fun t i =>
            match get t (app p [i]) with
            | Some (Node _ (_ :: _)) => rewriteCtxMethods fuel' [app p [i; 0]] t
            | _ => t
            end) (seq 0 (length cs)) t
        | KExpressionStatement | KAwaitExpression | KCallExpression =>
          match cs with
          | [] => t
          | _ => rewriteCtxMethods fuel' [app p [0]] t
          end
        | KBinaryExpression _ =>
          let t1 := rewriteCtxMethods fuel' [app p [0]] t in
          rewriteCtxMethods fuel' [app p [1]] t1
        | _ =>
          if ends_with "Statement" (kind_name k)
          then rewriteCtxMethods fuel' (getDescendantStatements (Node k cs) p) t
          else t
        end
      end) ps t
  end.

(** [rewriteCtxMethods(body.getDescendantStatements())] on a function body. *)
Definition rewriteBody (body : node) : node :=
  rewriteCtxMethods (node_size body) (getDescendantStatements body []) body.

(** ** Functions and their parameters *)

(** The name node of a parameter: an identifier or an object binding
    pattern; the pattern keeps its element names and the white space
    after [{] and before [}]. *)
Inductive binding : Type :=
| BId (s : string)
| BObj (elems : list string) (pre post : string).

Definition binding_text (b : binding) : string :=
  match b with
  | BId s => s
  | BObj es pre post => "{" ++ pre ++ concat_with ", " es ++ post ++ "}"
  end.

Fixpoint take_spaces (s : string) : string :=
  match s with
  | String c s' => if is_space c then String c (take_spaces s') else EmptyString
  | EmptyString => EmptyString
  end.

Fixpoint split_comma (s : string) : list string :=
  match s with
  | EmptyString => [EmptyString]
  | String c s' =>
    if Ascii.eqb c ","%char then EmptyString :: split_comma s'
    else match split_comma s' with
         | [] => [String c EmptyString]
         | x :: xs => String c x :: xs
         end
  end.

(** How the parser reads back the text given to [replaceWithText] for an
    object binding pattern of shorthand elements. *)
Definition parse_binding (s : string) : binding :=
  let n := String.length s in
  if starts_with "{" s && ends_with "}" s && Nat.leb 2 n then
    let inner := substring 1 (n - 2) s in
    let mid := trim inner in
    BObj (if String.eqb mid "" then [] else map trim (split_comma mid))
         (take_spaces inner) (rev_str (take_spaces (rev_str inner)))
  else BId s.

Definition option_eq_string (a b : option string) : bool :=
  match a, b with
  | Some x, Some y => String.eqb x y
  | None, None => true
  | _, _ => false
  end.

Record param : Type := mkParam { pbind : binding; ptype : option string }.

Inductive funKind : Type := FArrow | FMethod | FDecl | FExpr.

(** A function-like node: arrow function, method, function declaration or
    function expression, with its body (a [Block], or an expression for
    an arrow function). *)
Record func : Type := mkFunc {
  fkind : funKind;
  fname : string;
  fparams : list param;
  fbody : node
}.

Record ImportState : Type := mkImportState {
  core : list string;
  runtime : list string;
  compat : list string
}.

(** [Set.prototype.add] / [Set.prototype.delete] on insertion-ordered sets. *)
Definition set_add (x : string) (s : list string) : list string :=
  if existsb (String.eqb x) s then s else app s [x].
Definition set_delete (x : string) (s : list string) : list string :=
  filter (fun y => negb (String.eqb x y)) s.

Definition add_core (x : string) (st : ImportState) : ImportState :=
  mkImportState (set_add x (core st)) (runtime st) (compat st).

Definition const_stmt (x : string) (init : node) : node :=
  Node (KVariableStatement "const") [Node (KVariableDeclaration x) [init]].

(** [method.insertVariableStatement(0, ...)] *)
Definition insert_stmt0 (s : node) (body : node) : node :=
  match body with
  | Node KBlock ss => Node KBlock (s :: ss)
  | _ => body
  end.

Definition is_block (n : node) : bool :=
  match n with Node KBlock _ => true | _ => false end.

Definition set_first_binding (b : binding) (ps : list param) : list param :=
  match ps with
  | [] => []
  | p :: ps' => mkParam b (ptype p) :: ps'
  end.

(** ** [maybePrependReqVar] *)
Definition maybePrependReqVar (m : func) (st : ImportState) (hasInferredTypes : bool)
  : func * ImportState :=
  let params := fparams m in
  match params with
  | [] => (m, st)
  | p0 :: rest =>
    let paramName := binding_text (pbind p0) in
    (* Add explicit types if the user did that *)
    let hasInferredTypes :=
      if hasInferredTypes && match ptype p0 with Some _ => true | None => false end then false else hasInferredTypes in
    let hasRequestVar := Nat.ltb 1 (length params) || String.eqb paramName "req" in
    let '(ps1, st1) :=
      if hasRequestVar || String.eqb paramName "_req" then
        if hasRequestVar && Nat.eqb (length params) 1 then
          (* params[0].replaceWithText("ctx") *)
          if negb hasInferredTypes
          then ([mkParam (BId "ctx") (Some "FreshContext")], add_core "FreshContext" st)
          else ([mkParam (BId "ctx") None], st)
        else
          (* params[0].remove() *)
          match rest with
          | p1 :: rest' =>
            if option_eq_string (ptype p1) (Some "RouteContext")
            then (mkParam (pbind p1) (Some "FreshContext") :: rest', add_core "FreshContext" st)
            else (rest, st)
          | [] => (rest, st)
          end
      else (params, st) in
    let maybeObjBinding :=
      match rest with
      | p1 :: _ => Some (pbind p1)
      | [] => None
      end in
    let m1 := mkFunc (fkind m) (fname m) ps1 (fbody m) in
    if (match fkind m with FArrow => negb (is_block (fbody m)) | _ => false end) then
      (* console.warn("Cannot transform arrow function"); return *)
      (m1, st1)
    else
      let isObj := match maybeObjBinding with Some (BObj _ _ _) => true | _ => false end in
      let body1 :=
        if negb isObj && hasRequestVar && negb (starts_with "_" paramName)
        then insert_stmt0 (const_stmt paramName (prop (ident "ctx") "req")) (fbody m)
        else fbody m in
      match maybeObjBinding with
      | Some (BObj ((_ :: _) as es) pre post) =>
        let es1 := map (fun e => if String.eqb e "remoteAddr" then "info" else e) es in
        let needsRemoteAddr := existsb (String.eqb "remoteAddr") es in
        let b1 := BObj es1 pre post in
        let b2 :=
          if hasRequestVar && negb (starts_with "_" paramName)
          then parse_binding (slice_drop_end 2 (binding_text b1) ++ ", req }")
          else b1 in
        let body2 :=
          if needsRemoteAddr
          then insert_stmt0 (const_stmt "remoteAddr" (prop (ident "info") "remoteAddr")) body1
          else body1 in
        (mkFunc (fkind m) (fname m) (set_first_binding b2 ps1) body2, st1)
      | _ => (mkFunc (fkind m) (fname m) ps1 body1, st1)
      end
  end.

(** ** Source files *)

Record ImportDecl : Type := mkImportDecl {
  ispec : string;              (** module specifier *)
  idefault : option string;    (** default import *)
  inamespace : option string;  (** namespace import *)
  inamed : list string         (** named imports *)
}.

(** A property of the exported [handler] object literal. *)
Inductive hprop : Type :=
| PMethod (f : func)                  (** method declaration [GET(req) {...}] *)
| PAssignFun (name : string) (f : func) (** [GET: (req) => {...}] or [GET: function ...] *)
| POther (s : string).                (** any other property *)

Inductive darg : Type :=
| AFun (f : func)
| AOther (n : node).

(** The top-level statements of a file that the updater looks at. *)
Inductive item : Type :=
| IImport (d : ImportDecl)
| IHandlerObj (props : list hprop)          (** [export const handler = {...}] *)
| IHandlerFun (f : func)                     (** [export function handler(...) {...}] *)
| IDefaultCall (callee : node) (args : list darg) (** [export default f(...)] *)
| IDefaultFun (f : func)                     (** [export default function ...] *)
| IRaw (s : string).                         (** anything else, as source text *)

Record SourceFile : Type := mkSourceFile { sf_path : string; sf_items : list item }.

Definition print_param (p : param) : string :=
  binding_text (pbind p) ++
  match ptype p with Some ty => ": " ++ ty | None => "" end.

Definition print_func (f : func) : string :=
  let ps := "(" ++ concat_with ", " (map print_param (fparams f)) ++ ")" in
  match fkind f with
  | FArrow => ps ++ " => " ++ text (fbody f)
  | FMethod => fname f ++ ps ++ " " ++ text (fbody f)
  | FDecl => "function " ++ fname f ++ ps ++ " " ++ text (fbody f)
  | FExpr => "function " ++ fname f ++ ps ++ " " ++ text (fbody f)
  end.

Definition print_hprop (p : hprop) : string :=
  match p with
  | PMethod f => print_func f
  | PAssignFun nm f => nm ++ ": " ++ print_func f
  | POther s => s
  end.

Definition print_darg (a : darg) : string :=
  match a with AFun f => print_func f | AOther n => text n end.

Definition print_import (d : ImportDecl) : string :=
  let clause :=
    app (match idefault d with Some x => [x] | None => [] end)
      (app (match inamespace d with Some x => ["* as " ++ x] | None => [] end)
           (match inamed d with [] => [] | ns => ["{ " ++ concat_with ", " ns ++ " }"] end)) in
  let spec := dq ++ ispec d ++ dq in
  match clause with
  | [] => "import " ++ spec ++ ";" ++ nl
  | _ => "import " ++ concat_with ", " clause ++ " from " ++ spec ++ ";" ++ nl
  end.

Definition print_item (it : item) : string :=
  match it with
  | IImport d => print_import d
  | IHandlerObj ps => "export const handler = { " ++ concat_with ", " (map print_hprop ps) ++ " };" ++ nl
  | IHandlerFun f => "export " ++ print_func f ++ nl
  | IDefaultCall c args => "export default " ++ text c ++ "(" ++ concat_with ", " (map print_darg args) ++ ");" ++ nl
  | IDefaultFun f => "export default " ++ print_func f ++ nl
  | IRaw s => s
  end.

(** [sourceFile.getFullText()] *)
Definition print_items (its : list item) : string := String.concat "" (map print_item its).

(** ** Directive-comment stripping (text level) *)

Definition directives : list string :=
  [ "/** @jsx h */" ++ nl;
    "/** @jsxFrag Fragment */" ++ nl;
    "/// <reference no-default-lib=" ++ dq ++ "true" ++ dq ++ " />" ++ nl;
    "/// <reference lib=" ++ dq ++ "dom" ++ dq ++ " />" ++ nl;
    "/// <reference lib=" ++ dq ++ "dom.iterable" ++ dq ++ " />" ++ nl;
    "/// <reference lib=" ++ dq ++ "dom.asynciterable" ++ dq ++ " />" ++ nl;
    "/// <reference lib=" ++ dq ++ "deno.ns" ++ dq ++ " />" ++ nl ].

Definition strip_directives (s : string) : string :=
  fold_left (fun acc p => remove_all p acc) directives s.

(** ** The handler pass *)

Definition is_http_method (s : string) : bool :=
  existsb (String.eqb s) ["GET"; "POST"; "PATCH"; "PUT"; "DELETE"].

Definition is_wrapper (s : string) : bool :=
  existsb (String.eqb s) ["defineApp"; "defineLayout"; "defineRoute"].

(** [rewriteCtxMethods] over the body, then [maybePrependReqVar]. *)
Definition update_handler (f : func) (st : ImportState) (inferred : bool) : func * ImportState :=
  maybePrependReqVar (mkFunc (fkind f) (fname f) (fparams f) (rewriteBody (fbody f))) st inferred.

Definition update_hprop (st : ImportState) (p : hprop) : hprop * ImportState :=
  match p with
  | PMethod f =>
    if is_http_method (fname f)
    then let '(f', st') := update_handler f st true in (PMethod f', st')
    else (p, st)
  | PAssignFun nm f =>
    match fkind f with
    | FArrow | FExpr => let '(f', st') := update_handler f st true in (PAssignFun nm f', st')
    | _ => (p, st)
    end
  | POther _ => (p, st)
  end.

Fixpoint update_hprops (st : ImportState) (ps : list hprop) : list hprop * ImportState :=
  match ps with
  | [] => ([], st)
  | p :: ps' =>
    let '(p', st1) := update_hprop st p in
    let '(ps'', st2) := update_hprops st1 ps' in
    (p' :: ps'', st2)
  end.

Definition update_item (st : ImportState) (it : item) : item * ImportState :=
  match it with
  | IHandlerObj ps => let '(ps', st') := update_hprops st ps in (IHandlerObj ps', st')
  | IHandlerFun f => let '(f', st') := update_handler f st false in (IHandlerFun f', st')
  | IDefaultCall c args =>
    match c, args with
    | Node (KIdentifier _) _, AFun f :: rest =>
      if is_wrapper (text c) &&
         match fkind f with FArrow | FExpr => true | _ => false end
      then let '(f', st') := update_handler f st false in (IDefaultCall c (AFun f' :: rest), st')
      else (it, st)
    | _, _ => (it, st)
    end
  | IDefaultFun f => let '(f', st') := update_handler f st false in (IDefaultFun f', st')
  | _ => (it, st)
  end.

Fixpoint update_items (st : ImportState) (its : list item) : list item * ImportState :=
  match its with
  | [] => ([], st)
  | it :: its' =>
    let '(it', st1) := update_item st it in
    let '(its'', st2) := update_items st1 its' in
    (it' :: its'', st2)
  end.

Fixpoint drop_through_slash (s : string) : string :=
  match s with
  | EmptyString => EmptyString
  | String c s' => if Ascii.eqb c "/"%char then s' else drop_through_slash s'
  end.

(** [sourceFile.getDirectoryPath()] *)
Definition dirname (s : string) : string := rev_str (drop_through_slash (rev_str s)).

Definition is_route_file (p : string) : bool :=
  includes "/routes/" p && negb (includes "/(_" (dirname p)).

(** ** The import pass *)

Definition compat_names : list string :=
  ["defineApp"; "defineLayout"; "defineRoute"; "AppProps"; "ErrorPageProps";
   "Handler"; "Handlers"; "LayoutProps"; "RouteContext"; "UnknownPageProps"].

Record ImportAcc : Type := mkImportAcc {
  acc_imports : ImportState;
  hasCoreImport : bool;
  hasRuntimeImport : bool;
  modified : bool;
  removedJsxImports : list string
}.

(** [removeEmptyImport(d)] *)
Definition removeEmptyImport (d : ImportDecl) : option ImportDecl :=
  match inamed d, inamespace d, idefault d with
  | [], None, None => None
  | _, _, _ => Some d
  end.

Definition with_named (d : ImportDecl) (ns : list string) : ImportDecl :=
  mkImportDecl (ispec d) (idefault d) (inamespace d) ns.
Definition with_spec (d : ImportDecl) (s : string) : ImportDecl :=
  mkImportDecl s (idefault d) (inamespace d) (inamed d).

(** The body of [for (const d of sourceFile.getImportDeclarations())];
    [None] is a removed declaration. *)
Definition rewrite_import (a : ImportAcc) (d : ImportDecl) : option ImportDecl * ImportAcc :=
  let st := acc_imports a in
  if String.eqb (ispec d) "preact" then
    let isJsx := fun n => String.eqb n "h" || String.eqb n "Fragment" in
    let removed := filter isJsx (inamed d) in
    let d1 := with_named d (filter (fun n => negb (isJsx n)) (inamed d)) in
    (removeEmptyImport d1,
     mkImportAcc st (hasCoreImport a) (hasRuntimeImport a)
       (modified a || match removed with [] => false | _ => true end)
       (app (removedJsxImports a) removed))
  else if String.eqb (ispec d) "$fresh/server.ts" then
    let d1 := with_spec d "fresh" in
    let core1 := fold_left (fun c n => set_delete n c) (inamed d) (core st) in
    let kept := filter (fun n => negb (existsb (String.eqb n) compat_names)) (inamed d) in
    let compat1 :=
      fold_left (fun c n => if existsb (String.eqb n) compat_names then set_add n c else c)
        (inamed d) (compat st) in
    let d2 := with_named d1 (app kept core1) in
    (removeEmptyImport d2,
     mkImportAcc (mkImportState core1 (runtime st) compat1) true (hasRuntimeImport a)
       (modified a) (removedJsxImports a))
  else if String.eqb (ispec d) "$fresh/runtime.ts" then
    let d1 := with_spec d "fresh/runtime" in
    let runtime1 := fold_left (fun c n => set_delete n c) (inamed d) (runtime st) in
    let d2 := with_named d1 (app (inamed d) runtime1) in
    (removeEmptyImport d2,
     mkImportAcc (mkImportState (core st) runtime1 (compat st)) (hasCoreImport a) true
       (modified a) (removedJsxImports a))
  else (Some d, a).

Fixpoint rewrite_imports (a : ImportAcc) (its : list item) : list item * ImportAcc :=
  match its with
  | [] => ([], a)
  | IImport d :: its' =>
    let '(od, a1) := rewrite_import a d in
    let '(its'', a2) := rewrite_imports a1 its' in
    (match od with Some d' => IImport d' :: its'' | None => its'' end, a2)
  | it :: its' =>
    let '(its'', a2) := rewrite_imports a its' in (it :: its'', a2)
  end.

Definition is_import (it : item) : bool :=
  match it with IImport _ => true | _ => false end.

(** [sourceFile.addImportDeclaration(...)]: inserted after the last import
    declaration, or first when there is none.  [insert_after k] places the
    declaration after the [k]-th import. *)
Fixpoint insert_after (d : ImportDecl) (k : nat) (its : list item) : list item :=
  match k, its with
  | 0, _ => IImport d :: its
  | _, [] => [IImport d]
  | S k', it :: its' => it :: insert_after d (if is_import it then k' else k) its'
  end.

Definition addImportDeclaration (its : list item) (d : ImportDecl) : list item :=
  insert_after d (length (filter is_import its)) its.

Definition add_synthesized_imports (a : ImportAcc) (its : list item) : list item :=
  let st := acc_imports a in
  let its1 :=
    if negb (hasCoreImport a) && match core st with [] => false | _ => true end
    then addImportDeclaration its (mkImportDecl "fresh" None None (core st)) else its in
  let its2 :=
    if negb (hasRuntimeImport a) && match runtime st with [] => false | _ => true end
    then addImportDeclaration its1 (mkImportDecl "fresh/runtime" None None (core st)) else its1 in
  if match compat st with [] => false | _ => true end
  then addImportDeclaration its2 (mkImportDecl "fresh/compat" None None (compat st)) else its2.

(** Lines 394-465 of [updateFile], from the import state left by the
    handler pass. *)
Definition import_pass (st : ImportState) (its : list item) : list item * ImportAcc :=
  let '(its1, a) := rewrite_imports (mkImportAcc st false false false []) its in
  (add_synthesized_imports a its1, a).

Definition emptyImportState : ImportState := mkImportState [] [] [].

(** ** [updateFile]

    [parse] is the TypeScript parser behind [sourceFile.replaceWithText]:
    it rebuilds the file from its new text.  [stripped_items] is the file
    after the directive comments are removed. *)
Definition stripped_items (parse : string -> list item) (sf : SourceFile) : list item :=
  let originalText := print_items (sf_items sf) in
  let txt := strip_directives originalText in
  if String.eqb txt originalText then sf_items sf
  else (* sourceFile.replaceWithText(text) *) parse txt.

(** The saved file and the reported [wasModified]. *)
Definition updateFile (parse : string -> list item) (sf : SourceFile) : SourceFile * bool :=
  let originalText := print_items (sf_items sf) in
  let its0 := stripped_items parse sf in
  let '(its1, st) :=
    if is_route_file (sf_path sf) then update_items emptyImportState its0
    else (its0, emptyImportState) in
  let '(its2, a) := import_pass st its1 in
  let finalText := print_items its2 in
  (mkSourceFile (sf_path sf) its2,
   negb (String.eqb finalText originalText) || modified a).



(** A parser that keeps every text as one opaque item; it reads back what
    [print_items] prints. *)
Definition raw_parse (s : string) : list item := [IRaw s].

Definition import_specs (its : list item) : list string :=
  flat_map (fun it => match it with IImport d => [ispec d] | _ => [] end) its.

(** ** The manifest (deno.json / deno.jsonc) *)

Inductive json : Type :=
| JNull
| JBool (b : bool)
| JNum (tok : string)            (** a number, as JSON.stringify prints it *)
| JStr (s : string)
| JArr (xs : list json)
| JObj (kvs : list (string * json)).  (** keys in property order *)

Fixpoint obj_get (k : string) (kvs : list (string * json)) : option json :=
  match kvs with
  | [] => None
  | (k', v) :: kvs' => if String.eqb k k' then Some v else obj_get k kvs'
  end.

(** [o[k] = v]: in place when the key exists, appended otherwise. *)
Definition obj_set (k : string) (v : json) (kvs : list (string * json)) : list (string * json) :=
  if existsb (fun kv => String.eqb k (fst kv)) kvs
  then map (fun kv => if String.eqb k (fst kv) then (k, v) else kv) kvs
  else app kvs [(k, v)].

(** [delete o[k]] *)
Definition obj_delete (k : string) (kvs : list (string * json)) : list (string * json) :=
  filter (fun kv => negb (String.eqb k (fst kv))) kvs.

Definition FRESH_VERSION := "2.0.0-alpha.34".
Definition PREACT_VERSION := "10.26.6".
Definition PREACT_SIGNALS_VERSION := "2.0.4".

Definition bs : string := chr 92.
Definition task_cli_1 : string :=
  "echo " ++ dq ++ "import '" ++ bs ++ "$fresh/src/dev/cli.ts'" ++ dq ++ " | deno run --unstable -A -".
Definition task_cli_2 : string :=
  "echo " ++ dq ++ "import '$fresh/src/dev/cli.ts'" ++ dq ++ " | deno run --unstable -A -".

Definition is_jstr (s : string) (v : option json) : bool :=
  match v with Some (JStr s') => String.eqb s s' | _ => false end.

(** The edits applied to [config.tasks] when it is an object. *)
Definition edit_tasks (t : list (string * json)) : list (string * json) :=
  let t1 := if is_jstr "deno task cli manifest $(pwd)" (obj_get "manifest" t)
            then obj_delete "manifest" t else t in
  let t2 := if is_jstr task_cli_1 (obj_get "cli" t1) || is_jstr task_cli_2 (obj_get "cli" t1)
            then obj_delete "cli" t1 else t1 in
  let t3 := if is_jstr "deno run -A -r https://fresh.deno.dev/update ." (obj_get "update" t2)
            then obj_set "update" (JStr "deno run -A -r jsr:@fresh/update .") t2 else t2 in
  if is_jstr "deno fmt --check && deno lint && deno check **/*.ts && deno check **/*.tsx"
       (obj_get "check" t3)
  then obj_set "check" (JStr "deno fmt --check && deno lint && deno check") t3 else t3.

(** The edits applied to [config.imports] when it is an object. *)
Definition edit_imports (m : list (string * json)) : list (string * json) :=
  let m1 := obj_set "fresh" (JStr ("jsr:@fresh/core@^" ++ FRESH_VERSION)) m in
  let m2 := obj_set "preact" (JStr ("npm:preact@^" ++ PREACT_VERSION)) m1 in
  let m3 := obj_set "@preact/signals" (JStr ("npm:@preact/signals@^" ++ PREACT_SIGNALS_VERSION)) m2 in
  obj_delete "preact-render-to-string"
    (obj_delete "@preact/signals-core" (obj_delete "$fresh/" m3)).

(** The callback given to [updateDenoJson] by [updateProject]; [None] is a
    thrown [TypeError].  Properties set on an array are not serialized by
    [JSON.stringify], so an array is left as it prints. *)
Definition edit_config (config : json) : option json :=
  match config with
  | JObj kvs =>
    let imports_ok :=
      match obj_get "imports" kvs with
      | Some JNull => None                      (* null["fresh"] = ... throws *)
      | Some (JObj m) => Some (obj_set "imports" (JObj (edit_imports m)) kvs)
      | Some (JArr _) => Some kvs
      | _ => Some (obj_set "imports" (JObj (edit_imports [])) kvs)
      end in
    match imports_ok with
    | None => None
    | Some kvs1 =>
      let kvs2 := if existsb (fun kv => String.eqb "lock" (fst kv)) kvs1
                  then obj_delete "lock" kvs1 else kvs1 in
      match obj_get "tasks" kvs2 with
      | Some JNull => None                      (* null.manifest throws *)
      | Some (JObj t) => Some (JObj (obj_set "tasks" (JObj (edit_tasks t)) kvs2))
      | _ => Some (JObj kvs2)
      end
    end
  | JArr xs => Some (JArr xs)
  | _ => None      (* reading or assigning a property of null or a primitive throws *)
  end.

Definition hex_digit (n : nat) : string :=
  chr (if Nat.ltb n 10 then 48 + n else 87 + n).

(** One character as [JSON.stringify] writes it inside a string. *)
Definition escape_char (c : ascii) : string :=
  let n := nat_of_ascii c in
  if Nat.eqb n 34 then bs ++ dq
  else if Nat.eqb n 92 then bs ++ bs
  else if Nat.eqb n 8 then bs ++ "b"
  else if Nat.eqb n 12 then bs ++ "f"
  else if Nat.eqb n 10 then bs ++ "n"
  else if Nat.eqb n 13 then bs ++ "r"
  else if Nat.eqb n 9 then bs ++ "t"
  else if Nat.ltb n 32 then bs ++ "u00" ++ hex_digit (n / 16) ++ hex_digit (n mod 16)
  else String c EmptyString.

Fixpoint escape (s : string) : string :=
  match s with
  | EmptyString => EmptyString
  | String c s' => escape_char c ++ escape s'
  end.

Definition quote (s : string) : string := dq ++ escape s ++ dq.

Fixpoint indent (n : nat) : string :=
  match n with 0 => "" | S n' => "  " ++ indent n' end.

(** [JSON.stringify(v, null, 2)] at nesting level [lvl]. *)
Fixpoint stringify (lvl : nat) (v : json) : string :=
  match v with
  | JNull => "null"
  | JBool true => "true"
  | JBool false => "false"
  | JNum t => t
  | JStr s => quote s
  | JArr [] => "[]"
  | JArr xs =>
    "[" ++ nl ++
    concat_with ("," ++ nl) (map (fun x => indent (S lvl) ++ stringify (S lvl) x) xs) ++
    nl ++ indent lvl ++ "]"
  | JObj [] => "{}"
  | JObj kvs =>
    "{" ++ nl ++
    concat_with ("," ++ nl)
      (map (fun kv => indent (S lvl) ++ quote (fst kv) ++ ": " ++ stringify (S lvl) (snd kv)) kvs) ++
    nl ++ indent lvl ++ "}"
  end.

(** The file system: path -> contents. *)
Definition fsys := list (string * string).

Fixpoint fs_read (p : string) (fs : fsys) : option string :=
  match fs with
  | [] => None
  | (p', c) :: fs' => if String.eqb p p' then Some c else fs_read p fs'
  end.

Definition fs_write (p c : string) (fs : fsys) : fsys :=
  (p, c) :: filter (fun pc => negb (String.eqb p (fst pc))) fs.

(** The file read: [deno.json], else [deno.jsonc]. *)
Definition config_file (fs : fsys) (dir : string) : option (string * string) :=
  let p1 := dir ++ "/deno.json" in
  match fs_read p1 fs with
  | Some c => Some (p1, c)
  | None =>
    let p2 := dir ++ "/deno.jsonc" in
    match fs_read p2 fs with
    | Some c => Some (p2, c)
    | None => None
    end
  end.

(** [JSON.stringify] of the edited document; [None] when parsing or the
    callback throws.  [parse] is [JSONC.parse].  The loop deleting
    [undefined] properties removes nothing: neither [JSONC.parse] nor the
    callback stores [undefined]. *)
Definition newContent (parse : string -> option json) (fn : json -> option json)
  (content : string) : option string :=
  match parse content with
  | None => None
  | Some j =>
    match fn j with
    | None => None
    | Some j' => Some (stringify 0 j')
    end
  end.

(** [updateDenoJson]: [None] is an exception; otherwise
    ([updated], [path]) and the file system afterwards. *)
Definition updateDenoJson (parse : string -> option json) (fs : fsys) (dir : string)
  (fn : json -> option json) : option ((bool * option string) * fsys) :=
  match config_file fs dir with
  | None => Some ((false, None), fs)
  | Some (jsonPath, content) =>
    match newContent parse fn content with
    | None => None
    | Some nc =>
      if negb (String.eqb nc (trim content))
      then Some ((true, Some jsonPath), fs_write jsonPath (nc ++ nl) fs)
      else Some ((false, Some jsonPath), fs)
    end
  end.

(** An object has the key [k]; every [k] in it holds [v]. *)
Definition haskey (k : string) (t : list (string * json)) : bool :=
  existsb (fun kv => String.eqb k (fst kv)) t.

Definition allv (k : string) (v : json) (t : list (string * json)) : Prop :=
  Forall (fun kv => fst kv = k -> snd kv = v) t.

(** ** Phase 2 of [updateProject]

    Every file gets its own task; [upd p] is the outcome of
    [updateFile] on the file [p] ([None]: it threw, [Some m]: it returned
    [m]).  Files share no state, so the outcome of one file does not
    depend on the others.  The tasks finish in some order [done_order];
    [processedCount] and [modifiedCount] are bumped as each finishes, and
    [Promise.all] returns the results in the order of [sfs]. *)
Record FileResult : Type := mkFileResult {
  success : bool;
  fr_modified : bool;
  fr_path : string
}.

Definition task_result (upd : string -> option bool) (p : string) : FileResult :=
  match upd p with
  | Some m => mkFileResult true m p
  | None => mkFileResult false false p
  end.

Definition bump (upd : string -> option bool) (cnt : nat * nat) (p : string) : nat * nat :=
  match upd p with
  | Some m => (S (fst cnt), if m then S (snd cnt) else snd cnt)
  | None => cnt
  end.

Record ProjectResult : Type := mkProjectResult {
  configUpdated : bool;
  filesProcessed : nat;
  filesModified : nat;
  errors : nat;
  errorPaths : list string
}.

Definition updateProjectFiles (configUpdated0 : bool) (upd : string -> option bool)
  (sfs done_order : list string) : ProjectResult :=
  let results := map (task_result upd) sfs in
  let '(processedCount, modifiedCount) := fold_left (bump upd) done_order (0, 0) in
  let errs := filter (fun r => negb (success r)) results in
  mkProjectResult configUpdated0 processedCount modifiedCount (length errs) (map fr_path errs).

(** The file [p] threw / returned / returned [true]. *)
Definition failed (upd : string -> option bool) (p : string) : bool :=
  match upd p with None => true | Some _ => false end.
Definition succeeded (upd : string -> option bool) (p : string) : bool :=
  match upd p with Some _ => true | None => false end.
Definition changed (upd : string -> option bool) (p : string) : bool :=
  match upd p with Some true => true | _ => false end.

(** ** Sample inputs *)

(** [routes/index.tsx] with a handler already in the new style whose body
    calls [ctx.remoteAddr.renderNotFound()]. *)
Definition chainFile : SourceFile :=
  mkSourceFile "/app/routes/index.tsx"
    [IHandlerObj
       [PMethod (mkFunc FMethod "GET" [mkParam (BId "ctx") None]
          (Node KBlock
             [Node KExpressionStatement
                [call (prop (prop (ident "ctx") "remoteAddr") "renderNotFound") []]]))]].

(** A route importing from [$fresh/server.ts] twice. *)
Definition twoLegacyImportsFile : SourceFile :=
  mkSourceFile "/app/routes/index.tsx"
    [IImport (mkImportDecl "$fresh/server.ts" None None ["PageProps"; "Handlers"]);
     IImport (mkImportDecl "$fresh/server.ts" None None ["FreshContext"]);
     IHandlerFun (mkFunc FDecl "handler" [mkParam (BId "req") None] (Node KBlock []))].

(** A route with one legacy import and a [req] handler. *)
Definition oneLegacyImportFile : SourceFile :=
  mkSourceFile "/app/routes/index.tsx"
    [IImport (mkImportDecl "preact" None None ["h"; "Fragment"]);
     IImport (mkImportDecl "$fresh/server.ts" None None ["Handlers"; "PageProps"]);
     IHandlerFun (mkFunc FDecl "handler" [mkParam (BId "req") None] (Node KBlock []))].

(** A route that already imports from [fresh] and exports a [handler(req)]
    function. *)
Definition freshImportFile : SourceFile :=
  mkSourceFile "/app/routes/index.tsx"
    [IImport (mkImportDecl "fresh" None None ["page"]);
     IHandlerFun (mkFunc FDecl "handler" [mkParam (BId "req") None] (Node KBlock []))].

(** A Fresh 1.x [deno.json]: an import map with the [$fresh/] prefix and a
    [lock] setting. *)
Definition legacyDenoJson : string :=
  "{ " ++ dq ++ "imports" ++ dq ++ ": { " ++ dq ++ "$fresh/" ++ dq ++ ": " ++ dq ++
  "https://deno.land/x/fresh@1.6.8/" ++ dq ++ " }, " ++ dq ++ "lock" ++ dq ++ ": false }" ++ nl.

Definition legacyConfig : json :=
  JObj [("imports", JObj [("$fresh/", JStr "https://deno.land/x/fresh@1.6.8/")]);
        ("lock", JBool false)].

Definition migratedConfig : json :=
  JObj [("imports", JObj [("fresh", JStr "jsr:@fresh/core@^2.0.0-alpha.34");
                          ("preact", JStr "npm:preact@^10.26.6");
                          ("@preact/signals", JStr "npm:@preact/signals@^2.0.4")])].

(** [JSONC.parse] on the two texts of this example: the legacy file and the
    file as [updateDenoJson] writes it. *)
Definition legacyConfigParse (s : string) : option json :=
  if String.eqb s legacyDenoJson then Some legacyConfig
  else if String.eqb s (stringify 0 migratedConfig ++ nl) then Some migratedConfig
  else None.

Definition legacyFs : fsys := [("/app/deno.json", legacyDenoJson); ("/app/main.ts", "")].

(** ** Bodies the member rewriter has nothing to do in

    [quiet n]: no property access in [n] has the receiver text [ctx] with
    the last name [remoteAddr], nor the last name [renderNotFound]. *)
Fixpoint quiet (n : node) : bool :=
  let '(Node k cs) := n in
  match k, cs with
  | KPropertyAccessExpression, first :: _ =>
    negb (String.eqb (text first) "ctx" && String.eqb (text (last cs first)) "remoteAddr") &&
    negb (String.eqb (text (last cs first)) "renderNotFound")
  | _, _ => true
  end && forallb quiet cs.

(** An import declaration that names no Fresh 1.x module and no JSX
    factory from [preact]. *)
Definition legacy_free (d : ImportDecl) : Prop :=
  ispec d <> "$fresh/server.ts" /\ ispec d <> "$fresh/runtime.ts" /\
  (ispec d = "preact" -> ~ In "h" (inamed d) /\ ~ In "Fragment" (inamed d)).

(** * Properties *)

(** ** Paths into the tree *)

Module Paths.

Lemma upd_nth_ext {A} (i : nat) (f g : A -> A) (xs : list A) :
  (forall x, f x = g x) -> upd_nth i f xs = upd_nth i g xs.
Proof.
  intros Hfg. revert i; induction xs as [|x xs IH]; intros [|i]; simpl; auto.
  - rewrite Hfg; reflexivity.
  - rewrite IH; reflexivity.
Qed.

Lemma nth_error_upd_nth_same {A} (i : nat) (f : A -> A) (xs : list A) (x : A) :
  nth_error xs i = Some x -> nth_error (upd_nth i f xs) i = Some (f x).
Proof.
  revert i; induction xs as [|y xs IH]; intros [|i] H; simpl in *; try discriminate.
  - injection H as ->; reflexivity.
  - apply IH; exact H.
Qed.

Lemma get_upd_same (t : node) (p : path) (f : node -> node) (n : node) :
  get t p = Some n -> get (upd t p f) p = Some (f n).
Proof.
  revert t; induction p as [|i p IH]; intros [k cs] H; simpl in *.
  - injection H as ->; reflexivity.
  - destruct (nth_error cs i) as [c|] eqn:Hc; [|discriminate].
    rewrite (nth_error_upd_nth_same i _ cs c Hc). apply IH; exact H.
Qed.

Lemma upd_app (t : node) (p q : path) (f : node -> node) :
  upd t (app p q) f = upd t p (fun n => upd n q f).
Proof.
  revert t; induction p as [|i p IH]; intros [k cs]; simpl; [reflexivity|].
  f_equal. apply upd_nth_ext. intros c. apply IH.
Qed.

Lemma get_app (t : node) (p q : path) :
  get t (app p q) = match get t p with Some n => get n q | None => None end.
Proof.
  revert t; induction p as [|i p IH]; intros t; simpl; [reflexivity|].
  destruct (nth_error (node_children t) i); [apply IH | reflexivity].
Qed.

(** An edit strictly below [q] keeps the kind of the node at [q]. *)
Lemma get_upd_below (t : node) (q r : path) (f : node -> node) (k : kind) (cs : list node) :
  get t q = Some (Node k cs) -> r <> [] ->
  exists cs', get (upd t (app q r) f) q = Some (Node k cs').
Proof.
  intros H Hr. rewrite upd_app. rewrite (get_upd_same _ _ _ _ H).
  destruct r as [|j r]; [congruence|]. simpl. eauto.
Qed.

Lemma parent_path_snoc (q : path) (i : nat) : parent_path (app q [i]) = q.
Proof. unfold parent_path. apply removelast_last. Qed.

End Paths.

(** ** The member-access rewriter *)

Module MemberAccess.
Import Paths.

Lemma rewrite_remoteAddr (t : node) (p : path) :
  get t p = Some (prop (ident "ctx") "remoteAddr") ->
  rewriteCtxMemberName t p = set t (app p [0]) ctx_info_remoteAddr.
Proof.
  intros H. unfold rewriteCtxMemberName. rewrite H. reflexivity.
Qed.

(** C3 (the code's behaviour): [ctx.remoteAddr] has its receiver [ctx]
    replaced by [ctx.info.remoteAddr], so the access that results reads
    [ctx.info.remoteAddr.remoteAddr], one level deeper than the new
    location [ctx.info.remoteAddr] of the property. *)
Theorem ctx_remoteAddr_reads_twice (t : node) (p : path) :
  get t p = Some (prop (ident "ctx") "remoteAddr") ->
  get (rewriteCtxMemberName t p) p = Some (prop ctx_info_remoteAddr "remoteAddr") /\
  text (prop ctx_info_remoteAddr "remoteAddr") = "ctx.info.remoteAddr.remoteAddr".
Proof.
  intros H. rewrite (rewrite_remoteAddr t p H). unfold set.
  rewrite upd_app. rewrite (get_upd_same _ _ _ _ H). split; reflexivity.
Qed.

Lemma ctx_remoteAddr_reads_twice_witness :
  get (prop (ident "ctx") "remoteAddr") [] = Some (prop (ident "ctx") "remoteAddr") /\
  text (rewriteCtxMemberName (prop (ident "ctx") "remoteAddr") []) =
    "ctx.info.remoteAddr.remoteAddr".
Proof.
  split; [reflexivity|].
  destruct (ctx_remoteAddr_reads_twice (prop (ident "ctx") "remoteAddr") [] eq_refl) as [H H2].
  rewrite <- H2.
  exact (f_equal (fun o => match o with Some n => text n | None => "" end) H).
Defined.

Lemma rwMember_renderNotFound (t : node) (p : path) (r nm : node) :
  get t p = Some (Node KPropertyAccessExpression [r; nm]) ->
  text nm = "renderNotFound" ->
  rewriteCtxMemberName t p =
    let t1 := set t (app p [1]) (ident "throw") in
    match p, get t1 (parent_path p) with
    | _ :: _, Some (Node KCallExpression _) => upd t1 (parent_path p) (add_argument (num "404"))
    | _, _ => t1
    end.
Proof.
  intros H Hnm. unfold rewriteCtxMemberName. rewrite H. cbn [rwMember last length pred].
  rewrite Hnm. rewrite andb_false_r. reflexivity.
Qed.

(** C7: an access whose last name is [renderNotFound] gets that name
    replaced by [throw]; when the access sits in a call expression the
    call receives a trailing [404] argument, otherwise nothing else
    changes; an access that matches neither rule is handed on to its
    receiver when the receiver is itself a property access, so
    [ctx.state.renderNotFound()] and longer chains are reached. *)
Theorem renderNotFound_to_throw :
  (forall (t : node) (q : path) (i : nat) (r nm : node) (cs : list node),
     get t (app q [i]) = Some (Node KPropertyAccessExpression [r; nm]) ->
     text nm = "renderNotFound" ->
     get t q = Some (Node KCallExpression cs) ->
     rewriteCtxMemberName t (app q [i]) =
       upd (set t (app (app q [i]) [1]) (ident "throw")) q (add_argument (num "404"))) /\
  (forall (t : node) (p : path) (r nm : node),
     get t p = Some (Node KPropertyAccessExpression [r; nm]) ->
     text nm = "renderNotFound" ->
     (forall q i cs, p = app q [i] -> get t q = Some (Node KCallExpression cs) -> False) ->
     rewriteCtxMemberName t p = set t (app p [1]) (ident "throw")) /\
  (forall (t : node) (p : path) (r nm : node) (rcs : list node),
     get t p = Some (Node KPropertyAccessExpression [r; nm]) ->
     r = Node KPropertyAccessExpression rcs ->
     text nm <> "renderNotFound" ->
     ~ (text r = "ctx" /\ text nm = "remoteAddr") ->
     rewriteCtxMemberName t p = rewriteCtxMemberName t (app p [0])).
Proof.
  split; [|split].
  - intros t q i r nm cs Hp Hnm Hq.
    rewrite (rwMember_renderNotFound t _ r nm Hp Hnm). cbv zeta.
    remember (app q [i]) as p eqn:Ep. destruct p as [|n l]; [destruct q; discriminate|].
    rewrite Ep, parent_path_snoc.
    destruct (get_upd_below t q (app [i] [1]) (fun _ => ident "throw") _ _ Hq)
      as [cs' Hcs']; [discriminate|].
    unfold set. rewrite <- app_assoc. rewrite Hcs'. reflexivity.
  - intros t p r nm Hp Hnm Hnocall.
    rewrite (rwMember_renderNotFound t p r nm Hp Hnm). cbv zeta.
    destruct p as [|j p']; [reflexivity|].
    destruct (exists_last (l := j :: p') ltac:(discriminate)) as [q [i Hqi]].
    rewrite Hqi in *. rewrite parent_path_snoc.
    clear j p' Hqi.
    rewrite get_app in Hp. destruct (get t q) as [[k cs]|] eqn:Hq; [|discriminate].
    destruct (get_upd_below t q (app [i] [1]) (fun _ => ident "throw") _ _ Hq)
      as [cs' Hcs']; [discriminate|].
    unfold set. rewrite <- app_assoc. rewrite Hcs'.
    destruct k; try reflexivity.
    exfalso. exact (Hnocall q i cs eq_refl Hq).
  - intros t p r nm rcs Hp Hr Hnm Hnot.
    unfold rewriteCtxMemberName at 1. rewrite Hp. cbn [rwMember last].
    assert (Hb : (String.eqb (text r) "ctx" && String.eqb (text nm) "remoteAddr")%bool = false).
    { destruct (String.eqb_spec (text r) "ctx"); destruct (String.eqb_spec (text nm) "remoteAddr");
        simpl; tauto. }
    rewrite Hb.
    destruct (String.eqb_spec (text nm) "renderNotFound") as [E|_]; [contradiction|].
    subst r. unfold rewriteCtxMemberName. rewrite get_app, Hp. reflexivity.
Qed.

(** [ctx.state.renderNotFound()] becomes [ctx.state.throw(404)]. *)
Lemma renderNotFound_to_throw_witness :
  get (call (prop (prop (ident "ctx") "state") "renderNotFound") []) [0] =
    Some (Node KPropertyAccessExpression [prop (ident "ctx") "state"; ident "renderNotFound"]) /\
  rewriteCtxMemberName (call (prop (prop (ident "ctx") "state") "renderNotFound") []) [0] =
    call (prop (prop (ident "ctx") "state") "throw") [num "404"].
Proof.
  split; [reflexivity|].
  refine (eq_trans ((proj1 renderNotFound_to_throw)
             (call (prop (prop (ident "ctx") "state") "renderNotFound") []) [] 0
             (prop (ident "ctx") "state") (ident "renderNotFound")
             [prop (prop (ident "ctx") "state") "renderNotFound"] eq_refl eq_refl eq_refl) _).
  reflexivity.
Defined.

End MemberAccess.

(** ** The parameter normalizer *)

Module Params.

(** C10: a lone parameter [_req] is removed; no [const req = ctx.req] is
    inserted, no type is added and the import sets are left alone. *)
Theorem underscore_req_param_removed (k : funKind) (nm : string) (ty : option string)
  (body : node) (st : ImportState) (inferred : bool) :
  maybePrependReqVar (mkFunc k nm [mkParam (BId "_req") ty] body) st inferred =
  (mkFunc k nm [] body, st).
Proof.
  unfold maybePrependReqVar; destruct k, ty, inferred; cbn;
    try destruct (is_block body); reflexivity.
Qed.

(** C4 (as the code does it): a lone unannotated [req] parameter of a
    block-bodied handler is renamed [ctx] and [const req = ctx.req] becomes
    the first statement of the body.  The [FreshContext] annotation, and
    its entry in the core import set, are added only when the caller does
    not rely on inferred types ([inferred = false]: an exported [handler]
    function, a default-exported function or wrapper argument); for the
    HTTP-method properties of an exported [handler] object
    ([inferred = true]) the parameter stays unannotated. *)
Theorem req_param_to_ctx (k : funKind) (nm : string) (ss : list node)
  (st : ImportState) (inferred : bool) :
  maybePrependReqVar (mkFunc k nm [mkParam (BId "req") None] (Node KBlock ss)) st inferred =
  (mkFunc k nm [mkParam (BId "ctx") (if inferred then None else Some "FreshContext")]
     (Node KBlock (const_stmt "req" (prop (ident "ctx") "req") :: ss)),
   if inferred then st else add_core "FreshContext" st).
Proof. destruct k, inferred; reflexivity. Qed.

(** C4, refuted: [export const handler = { GET(req) {} }] becomes
    [GET(ctx) { const req = ctx.req; }] with no type annotation and no
    [FreshContext] import. *)
Lemma handler_object_method_not_annotated :
  update_item emptyImportState
    (IHandlerObj [PMethod (mkFunc FMethod "GET" [mkParam (BId "req") None] (Node KBlock []))]) =
  (IHandlerObj [PMethod (mkFunc FMethod "GET" [mkParam (BId "ctx") None]
                  (Node KBlock [const_stmt "req" (prop (ident "ctx") "req")]))],
   emptyImportState).
Proof. vm_compute. reflexivity. Qed.

(** C5 (as the code does it): for [(p, { remoteAddr }) => {...}] with a
    block body and [p] not starting with [_], the first parameter is
    removed, the pattern becomes [{ info, req }] (so [req] is bound by
    the pattern), and the only statement inserted is
    [const remoteAddr = info.remoteAddr]; a [RouteContext] annotation on
    the pattern becomes [FreshContext]. *)
Theorem req_remoteAddr_pattern (k : funKind) (nm n : string) (ty0 ty1 : option string)
  (ss : list node) (st : ImportState) (inferred : bool) :
  starts_with "_" n = false ->
  maybePrependReqVar
    (mkFunc k nm [mkParam (BId n) ty0; mkParam (BObj ["remoteAddr"] " " " ") ty1]
       (Node KBlock ss)) st inferred =
  (mkFunc k nm
     [mkParam (BObj ["info"; "req"] " " " ")
        (if option_eq_string ty1 (Some "RouteContext") then Some "FreshContext" else ty1)]
     (Node KBlock (const_stmt "remoteAddr" (prop (ident "info") "remoteAddr") :: ss)),
   if option_eq_string ty1 (Some "RouteContext") then add_core "FreshContext" st else st).
Proof.
  intros Hn. unfold maybePrependReqVar. cbn - [parse_binding].
  unfold starts_with in Hn. rewrite Hn.
  destruct (option_eq_string ty1 (Some "RouteContext")), k; reflexivity.
Qed.

Lemma req_remoteAddr_pattern_witness :
  starts_with "_" "req" = false /\
  maybePrependReqVar
    (mkFunc FArrow "" [mkParam (BId "req") None; mkParam (BObj ["remoteAddr"] " " " ") None]
       (Node KBlock [])) emptyImportState true =
  (mkFunc FArrow "" [mkParam (BObj ["info"; "req"] " " " ") None]
     (Node KBlock [const_stmt "remoteAddr" (prop (ident "info") "remoteAddr")]),
   emptyImportState).
Proof.
  split; [reflexivity|].
  exact (req_remoteAddr_pattern FArrow "" "req" None None [] emptyImportState true eq_refl).
Defined.

(** C5, refuted: [(req, { remoteAddr }) => {}] gets no
    [const req = ctx.req] statement. *)
Lemma remoteAddr_pattern_no_req_const :
  fbody (fst (maybePrependReqVar
    (mkFunc FArrow "" [mkParam (BId "req") None; mkParam (BObj ["remoteAddr"] " " " ") None]
       (Node KBlock [])) emptyImportState true)) =
  Node KBlock [const_stmt "remoteAddr" (prop (ident "info") "remoteAddr")].
Proof. vm_compute. reflexivity. Qed.

End Params.

(** ** The whole-file pass *)

Module FileUpdate.

(** C1: run on [chainFile], [updateFile] rewrites [renderNotFound] but not
    the receiver [ctx.remoteAddr]; a second run rewrites that receiver and
    reports the file as modified again. *)
Theorem updateFile_second_run_changes :
  print_items (sf_items (fst (updateFile raw_parse chainFile))) =
    "export const handler = { GET(ctx) { ctx.remoteAddr.throw(404); } };" ++ nl /\
  print_items (sf_items (fst (updateFile raw_parse (fst (updateFile raw_parse chainFile))))) =
    "export const handler = { GET(ctx) { ctx.info.remoteAddr.remoteAddr.throw(404); } };" ++ nl /\
  snd (updateFile raw_parse (fst (updateFile raw_parse chainFile))) = true.
Proof. vm_compute. repeat split. Qed.







(** C2: [updateFile] leaves two declarations importing from [fresh] when
    the file already imports from [fresh] and the handler pass registers
    [FreshContext], and when the file has two [$fresh/server.ts] imports
    (the third declaration there is the synthesized [fresh/compat] one). *)
Theorem updateFile_duplicate_fresh_imports :
  import_specs (sf_items (fst (updateFile raw_parse freshImportFile))) = ["fresh"; "fresh"] /\
  sf_items (fst (updateFile raw_parse freshImportFile)) =
    [IImport (mkImportDecl "fresh" None None ["page"]);
     IImport (mkImportDecl "fresh" None None ["FreshContext"]);
     IHandlerFun (mkFunc FDecl "handler" [mkParam (BId "ctx") (Some "FreshContext")]
        (Node KBlock [const_stmt "req" (prop (ident "ctx") "req")]))] /\
  import_specs (sf_items (fst (updateFile raw_parse twoLegacyImportsFile))) =
    ["fresh"; "fresh"; "fresh/compat"].
Proof. vm_compute. repeat split. Qed.

End FileUpdate.

(** ** The manifest *)

Module Manifest.

Lemma haskey_false_forall (k : string) (t : list (string * json)) :
  haskey k t = false -> forall kv, In kv t -> fst kv <> k.
Proof.
  unfold haskey. intros H kv Hin Heq.
  assert (Hx : existsb (fun kv => String.eqb k (fst kv)) t = true).
  { apply existsb_exists. exists kv. split; [exact Hin|]. apply String.eqb_eq; auto. }
  congruence.
Qed.

Lemma obj_set_self (k : string) (v : json) (t : list (string * json)) :
  haskey k t = true -> allv k v t -> obj_set k v t = t.
Proof.
  unfold obj_set, haskey. intros Hh Ha. rewrite Hh. clear Hh.
  induction Ha as [|[k0 x] t Hx Ha IH]; [reflexivity|]. simpl in *.
  rewrite IH. destruct (String.eqb k k0) eqn:E; [|reflexivity].
  apply String.eqb_eq in E. subst. rewrite Hx; reflexivity.
Qed.

Lemma obj_delete_self (k : string) (t : list (string * json)) :
  haskey k t = false -> obj_delete k t = t.
Proof.
  unfold obj_delete, haskey. induction t as [|[k0 x] t IH]; [reflexivity|].
  simpl. intros H. apply Bool.orb_false_iff in H. destruct H as [H1 H2].
  rewrite H1. simpl. rewrite IH; auto.
Qed.

Lemma haskey_map_other (k k' : string) (v : json) (t : list (string * json)) :
  haskey k (map (fun kv => if String.eqb k' (fst kv) then (k', v) else kv) t) =
  haskey k t \/ k = k'.
Proof.
  destruct (String.eqb k k') eqn:Ek; [right; apply String.eqb_eq; auto|left].
  unfold haskey. induction t as [|[k0 x] t IH]; [reflexivity|]. simpl.
  rewrite IH. destruct (String.eqb k' k0) eqn:E; [|reflexivity]. simpl.
  apply String.eqb_eq in E. subst. rewrite Ek. reflexivity.
Qed.

Lemma haskey_set_same (k : string) (v : json) (t : list (string * json)) :
  haskey k (obj_set k v t) = true.
Proof.
  unfold obj_set. destruct (existsb _ t) eqn:E.
  - unfold haskey. apply existsb_exists in E. destruct E as [[k0 x] [Hin Hk]].
    apply existsb_exists. exists (k, v). split; [|apply String.eqb_refl].
    apply in_map_iff. exists (k0, x). simpl in *. rewrite Hk. auto.
  - unfold haskey. rewrite existsb_app. simpl. rewrite String.eqb_refl.
    apply Bool.orb_true_r.
Qed.

Lemma haskey_set_other (k k' : string) (v : json) (t : list (string * json)) :
  haskey k t = true -> k <> k' -> haskey k (obj_set k' v t) = true.
Proof.
  intros Hh Hne. unfold obj_set. destruct (existsb _ t).
  - destruct (haskey_map_other k k' v t) as [H|H]; [rewrite H; auto|contradiction].
  - unfold haskey in *. rewrite existsb_app, Hh. reflexivity.
Qed.

Lemma lacks_set_other (k k' : string) (v : json) (t : list (string * json)) :
  haskey k t = false -> k <> k' -> haskey k (obj_set k' v t) = false.
Proof.
  intros Hh Hne. unfold obj_set. destruct (existsb _ t).
  - destruct (haskey_map_other k k' v t) as [H|H]; [rewrite H; auto|contradiction].
  - unfold haskey in *. rewrite existsb_app, Hh. simpl.
    apply String.eqb_neq in Hne. rewrite Hne. reflexivity.
Qed.

Lemma haskey_delete_other (k k' : string) (t : list (string * json)) :
  haskey k t = true -> k <> k' -> haskey k (obj_delete k' t) = true.
Proof.
  unfold haskey, obj_delete. intros Hh Hne. apply existsb_exists in Hh.
  destruct Hh as [[k0 x] [Hin Hk]]. apply existsb_exists. exists (k0, x).
  split; [|exact Hk]. apply filter_In. split; [exact Hin|]. simpl in *.
  apply String.eqb_eq in Hk. subst. apply String.eqb_neq in Hne.
  rewrite String.eqb_sym, Hne. reflexivity.
Qed.

Lemma lacks_delete (k k' : string) (t : list (string * json)) :
  haskey k t = false -> haskey k (obj_delete k' t) = false.
Proof.
  unfold haskey, obj_delete. intros Hh.
  destruct (existsb _ (filter _ t)) eqn:E; [|reflexivity].
  apply existsb_exists in E. destruct E as [kv [Hin Hk]].
  apply filter_In in Hin. destruct Hin as [Hin _].
  assert (Hx : existsb (fun kv => String.eqb k (fst kv)) t = true)
    by (apply existsb_exists; eauto).
  congruence.
Qed.

Lemma lacks_delete_same (k : string) (t : list (string * json)) :
  haskey k (obj_delete k t) = false.
Proof.
  unfold haskey, obj_delete. induction t as [|[k0 x] t IH]; [reflexivity|]. simpl.
  destruct (String.eqb k k0) eqn:E; simpl; [exact IH|]. rewrite E. exact IH.
Qed.

Lemma allv_set_same (k : string) (v : json) (t : list (string * json)) :
  allv k v (obj_set k v t).
Proof.
  unfold allv, obj_set. apply Forall_forall. intros [k0 x] Hin Hk. simpl in Hk |- *. subst k0.
  destruct (existsb _ t) eqn:E.
  - apply in_map_iff in Hin. destruct Hin as [[k1 y] [Heq Hin]]. simpl in Heq.
    destruct (String.eqb k k1) eqn:E1; [congruence|].
    inversion Heq; subst. rewrite String.eqb_refl in E1. discriminate.
  - apply in_app_or in Hin. destruct Hin as [Hin|[Hin|[]]]; [|congruence].
    exfalso. exact (haskey_false_forall k t E (k, x) Hin eq_refl).
Qed.

Lemma allv_set_other (k k' : string) (v v' : json) (t : list (string * json)) :
  allv k v t -> k <> k' -> allv k v (obj_set k' v' t).
Proof.
  unfold allv, obj_set. intros Ha Hne. rewrite Forall_forall in *.
  intros [k0 x] Hin Hk. simpl in Hk |- *. subst k0.
  destruct (existsb _ t).
  - apply in_map_iff in Hin. destruct Hin as [[k1 y] [Heq Hin]]. simpl in Heq.
    destruct (String.eqb k' k1) eqn:E1; inversion Heq; subst; [contradiction|].
    exact (Ha (k, x) Hin eq_refl).
  - apply in_app_or in Hin. destruct Hin as [Hin|[Hin|[]]].
    + exact (Ha (k, x) Hin eq_refl).
    + inversion Hin; subst. contradiction.
Qed.

Lemma allv_delete (k k' : string) (v : json) (t : list (string * json)) :
  allv k v t -> allv k v (obj_delete k' t).
Proof.
  unfold allv, obj_delete. intros Ha. rewrite Forall_forall in *.
  intros kv Hin. apply filter_In in Hin. apply Ha, Hin.
Qed.

Lemma obj_get_set_same (k : string) (v : json) (t : list (string * json)) :
  obj_get k (obj_set k v t) = Some v.
Proof.
  unfold obj_set. destruct (existsb _ t) eqn:E.
  - induction t as [|[k0 x] t IH]; [discriminate|]. simpl in *.
    destruct (String.eqb k k0) eqn:Ek; simpl.
    + rewrite String.eqb_refl. reflexivity.
    + rewrite Ek. apply IH, E.
  - induction t as [|[k0 x] t IH]; simpl; [rewrite String.eqb_refl; reflexivity|].
    simpl in E. apply Bool.orb_false_iff in E. destruct E as [E1 E2].
    rewrite E1. apply IH, E2.
Qed.

Lemma obj_get_set_other (k k' : string) (v : json) (t : list (string * json)) :
  k <> k' -> obj_get k (obj_set k' v t) = obj_get k t.
Proof.
  intros Hne. unfold obj_set. destruct (existsb _ t).
  - induction t as [|[k0 x] t IH]; [reflexivity|]. simpl.
    destruct (String.eqb k' k0) eqn:E; simpl.
    + apply String.eqb_eq in E. subst. apply String.eqb_neq in Hne.
      rewrite Hne. exact IH.
    + rewrite IH. reflexivity.
  - induction t as [|[k0 x] t IH]; simpl.
    + apply String.eqb_neq in Hne. rewrite Hne. reflexivity.
    + rewrite IH. reflexivity.
Qed.

Lemma obj_get_delete_other (k k' : string) (t : list (string * json)) :
  k <> k' -> obj_get k (obj_delete k' t) = obj_get k t.
Proof.
  intros Hne. unfold obj_delete. induction t as [|[k0 x] t IH]; [reflexivity|]. simpl.
  destruct (String.eqb k' k0) eqn:E; simpl.
  - apply String.eqb_eq in E. subst. apply String.eqb_neq in Hne.
    rewrite Hne. exact IH.
  - rewrite IH. reflexivity.
Qed.

Lemma obj_get_delete_same (k : string) (t : list (string * json)) :
  obj_get k (obj_delete k t) = None.
Proof.
  unfold obj_delete. induction t as [|[k0 x] t IH]; [reflexivity|]. simpl.
  destruct (String.eqb k k0) eqn:E; simpl; [exact IH|]. rewrite E. exact IH.
Qed.

Create HintDb objdb.
#[local] Hint Resolve haskey_set_same haskey_set_other lacks_set_other haskey_delete_other
  lacks_delete lacks_delete_same allv_set_same allv_set_other allv_delete : objdb.
#[local] Hint Extern 1 (_ <> _) => discriminate : objdb.

Lemma edit_imports_idem (m : list (string * json)) :
  edit_imports (edit_imports m) = edit_imports m.
Proof.
  unfold edit_imports at 1. set (m' := edit_imports m).
  assert (Hm : haskey "fresh" m' = true /\ allv "fresh" (JStr ("jsr:@fresh/core@^" ++ FRESH_VERSION)) m' /\
               haskey "preact" m' = true /\ allv "preact" (JStr ("npm:preact@^" ++ PREACT_VERSION)) m' /\
               haskey "@preact/signals" m' = true /\
               allv "@preact/signals" (JStr ("npm:@preact/signals@^" ++ PREACT_SIGNALS_VERSION)) m' /\
               haskey "$fresh/" m' = false /\ haskey "@preact/signals-core" m' = false /\
               haskey "preact-render-to-string" m' = false).
  { subst m'. unfold edit_imports. repeat split; eauto 12 with objdb. }
  destruct Hm as (H1 & H2 & H3 & H4 & H5 & H6 & H7 & H8 & H9).
  rewrite (obj_set_self _ _ m') by assumption.
  rewrite (obj_set_self _ _ m') by assumption.
  rewrite (obj_set_self _ _ m') by assumption.
  rewrite (obj_delete_self _ m') by assumption.
  rewrite (obj_delete_self _ m') by assumption.
  rewrite (obj_delete_self _ m') by assumption.
  reflexivity.
Qed.

Ltac getsimp :=
  repeat first
    [ rewrite obj_get_set_same in *
    | rewrite obj_get_delete_same in *
    | rewrite obj_get_set_other in * by discriminate
    | rewrite obj_get_delete_other in * by discriminate ].

Lemma edit_tasks_settled (t : list (string * json)) :
  is_jstr "deno task cli manifest $(pwd)" (obj_get "manifest" (edit_tasks t)) = false /\
  (is_jstr task_cli_1 (obj_get "cli" (edit_tasks t)) ||
   is_jstr task_cli_2 (obj_get "cli" (edit_tasks t))) = false /\
  is_jstr "deno run -A -r https://fresh.deno.dev/update ." (obj_get "update" (edit_tasks t)) = false /\
  is_jstr "deno fmt --check && deno lint && deno check **/*.ts && deno check **/*.tsx"
    (obj_get "check" (edit_tasks t)) = false.
Proof.
  unfold edit_tasks. cbv zeta.
  repeat match goal with |- context [if ?b then _ else _] => destruct b eqn:? end;
    getsimp; repeat split; first [assumption | reflexivity].
Qed.

Lemma edit_tasks_idem (t : list (string * json)) :
  edit_tasks (edit_tasks t) = edit_tasks t.
Proof.
  destruct (edit_tasks_settled t) as (F1 & F2 & F3 & F4).
  unfold edit_tasks at 1. cbv zeta. rewrite F1. cbv iota. rewrite F2. cbv iota.
  rewrite F3. cbv iota. rewrite F4. reflexivity.
Qed.

Lemma edit_config_idem (v v' : json) :
  edit_config v = Some v' -> edit_config v' = Some v'.
Proof.
  destruct v as [| | | |xs|kvs]; unfold edit_config; cbv beta iota; try discriminate.
  - intros H. inversion H; subst. reflexivity.
  - set (kvs1 := match obj_get "imports" kvs with
                 | Some JNull => None
                 | Some (JObj m) => Some (obj_set "imports" (JObj (edit_imports m)) kvs)
                 | Some (JArr _) => Some kvs
                 | _ => Some (obj_set "imports" (JObj (edit_imports [])) kvs)
                 end).
    (* the value of [imports] after the first run, and that the second run
       leaves it as it is *)
    assert (Hi : kvs1 = None \/
      exists kvs1', kvs1 = Some kvs1' /\
      ((exists m, obj_get "imports" kvs1' = Some (JObj m) /\ edit_imports m = m /\
                  haskey "imports" kvs1' = true /\ allv "imports" (JObj m) kvs1') \/
       (exists xs, obj_get "imports" kvs1' = Some (JArr xs)))).
    { subst kvs1. destruct (obj_get "imports" kvs) as [[| | | |xs|m]|] eqn:E;
        try (left; reflexivity);
        right; eexists; split; try reflexivity;
        first [ right; exists xs; exact E
              | left; eexists; split; [apply obj_get_set_same|];
                split; [apply edit_imports_idem|]; split; eauto with objdb ]. }
    destruct Hi as [Hi|[kvs1' [Hi Hc]]]; rewrite Hi; [discriminate|].
    cbv beta iota zeta.
    set (kvs2 := if existsb (fun kv => String.eqb "lock" (fst kv)) kvs1'
                 then obj_delete "lock" kvs1' else kvs1').
    assert (Hl : haskey "lock" kvs2 = false).
    { subst kvs2. destruct (existsb _ kvs1') eqn:E; [apply lacks_delete_same|exact E]. }
    assert (Hg : forall k, k <> "lock" -> obj_get k kvs2 = obj_get k kvs1').
    { intros k Hk. subst kvs2. destruct (existsb _ kvs1'); [|reflexivity].
      apply obj_get_delete_other, Hk. }
    assert (Hc2 : (exists m, obj_get "imports" kvs2 = Some (JObj m) /\ edit_imports m = m /\
                  haskey "imports" kvs2 = true /\ allv "imports" (JObj m) kvs2) \/
                  (exists xs, obj_get "imports" kvs2 = Some (JArr xs))).
    { rewrite Hg by discriminate. destruct Hc as [(m & H1 & H2 & H3 & H4)|[xs H1]].
      - left. exists m. repeat split; try assumption; subst kvs2;
          destruct (existsb _ kvs1'); eauto with objdb.
      - right. exists xs. exact H1. }
    clearbody kvs2. clear Hg Hc Hi kvs1 kvs1' kvs.
    destruct (obj_get "tasks" kvs2) as [[| | | |ys|t]|] eqn:Et; intros H;
      inversion H; subst; clear H; unfold edit_config; cbv beta iota zeta.
    all: match goal with
         | |- context [obj_get "imports" (obj_set "tasks" _ _)] =>
           rewrite obj_get_set_other by discriminate
         | _ => idtac
         end.
    all: destruct Hc2 as [(m & H1 & H2 & H3 & H4)|[xs H1]]; rewrite H1.
    all: try rewrite H2.
    all: try rewrite (obj_set_self "imports" (JObj m)) by eauto with objdb.
    all: match goal with
         | |- context [existsb ?f ?l] =>
           change (existsb f l) with (haskey "lock" l)
         end.
    all: try rewrite lacks_set_other by (eauto with objdb).
    all: try rewrite Hl.
    all: try rewrite obj_get_set_same.
    all: try rewrite Et.
    all: try rewrite edit_tasks_idem.
    all: try rewrite (obj_set_self "tasks" (JObj (edit_tasks t))) by eauto with objdb.
    all: reflexivity.
Qed.

Lemma str_app_assoc (a b c : string) : (a ++ b) ++ c = a ++ (b ++ c).
Proof. induction a as [|x a IH]; simpl; [reflexivity|]. rewrite IH. reflexivity. Qed.

Lemma str_app_nil_r (a : string) : a ++ "" = a.
Proof. induction a as [|x a IH]; simpl; [reflexivity|]. rewrite IH. reflexivity. Qed.

Lemma rev_str_app (a b : string) : rev_str (a ++ b) = rev_str b ++ rev_str a.
Proof.
  induction a as [|x a IH]; simpl; [rewrite str_app_nil_r; reflexivity|].
  rewrite IH, str_app_assoc. reflexivity.
Qed.

Lemma rev_str_invol (s : string) : rev_str (rev_str s) = s.
Proof.
  induction s as [|x s IH]; simpl; [reflexivity|]. rewrite rev_str_app, IH. reflexivity.
Qed.

(** [(s + "\n").trim() === s] when [s] starts and ends with a character
    that is not white space. *)
Lemma trim_app_nl (s : string) (c0 c1 : ascii) (s0 r : string) :
  s = String c0 s0 -> is_space c0 = false ->
  rev_str s = String c1 r -> is_space c1 = false ->
  trim (s ++ nl) = s.
Proof.
  intros Hs H0 Hr H1. unfold trim.
  assert (E : trim_start (s ++ nl) = s ++ nl) by (rewrite Hs; simpl; rewrite H0; reflexivity).
  rewrite E, rev_str_app. simpl. rewrite Hr. simpl. rewrite H1, <- Hr, rev_str_invol.
  reflexivity.
Qed.

Lemma edit_config_shape (v v' : json) :
  edit_config v = Some v' -> (exists kvs, v' = JObj kvs) \/ (exists xs, v' = JArr xs).
Proof.
  destruct v as [| | | |xs|kvs]; unfold edit_config; cbv beta iota; try discriminate.
  - intros H. inversion H; subst. right; eauto.
  - destruct (match obj_get "imports" kvs with
              | Some JNull => None
              | Some (JObj m) => Some (obj_set "imports" (JObj (edit_imports m)) kvs)
              | Some (JArr _) => Some kvs
              | _ => Some (obj_set "imports" (JObj (edit_imports [])) kvs)
              end) as [kvs1|]; [|discriminate].
    cbv beta iota zeta.
    destruct (obj_get "tasks" _) as [[| | | | |]|]; intros H; inversion H; left; eauto.
Qed.

Lemma stringify_edges (v : json) :
  (exists kvs, v = JObj kvs) \/ (exists xs, v = JArr xs) ->
  exists c0 s0 c1 r, stringify 0 v = String c0 s0 /\ is_space c0 = false /\
    rev_str (stringify 0 v) = String c1 r /\ is_space c1 = false.
Proof.
  intros [[kvs ->]|[xs ->]].
  - destruct kvs as [|kv kvs]; [do 4 eexists; repeat split; reflexivity|].
    cbn [stringify]. do 4 eexists. split; [reflexivity|]. split; [reflexivity|].
    rewrite !rev_str_app. simpl. split; reflexivity.
  - destruct xs as [|x xs]; [do 4 eexists; repeat split; reflexivity|].
    cbn [stringify]. do 4 eexists. split; [reflexivity|]. split; [reflexivity|].
    rewrite !rev_str_app. simpl. split; reflexivity.
Qed.

Lemma fs_read_filter (q p : string) (fs : fsys) :
  q <> p -> fs_read q (filter (fun pc => negb (String.eqb p (fst pc))) fs) = fs_read q fs.
Proof.
  intros Hne. induction fs as [|[p' c] fs IH]; [reflexivity|]. simpl.
  destruct (String.eqb p p') eqn:E; simpl.
  - apply String.eqb_eq in E. subst. apply String.eqb_neq in Hne. rewrite Hne. exact IH.
  - rewrite IH. reflexivity.
Qed.

Lemma str_app_cancel_l (d a b : string) : d ++ a = d ++ b -> a = b.
Proof. induction d as [|x d IH]; simpl; [auto|]. intros H. inversion H. auto. Qed.

Lemma config_file_write (fs : fsys) (dir p c c' : string) :
  config_file fs dir = Some (p, c) -> config_file (fs_write p c' fs) dir = Some (p, c').
Proof.
  unfold config_file, fs_write. destruct (fs_read (dir ++ "/deno.json") fs) as [c0|] eqn:E1.
  - intros H. inversion H; subst. simpl. rewrite String.eqb_refl. reflexivity.
  - destruct (fs_read (dir ++ "/deno.jsonc") fs) as [c0|] eqn:E2; [|discriminate].
    intros H. inversion H; subst. simpl.
    assert (Hne : dir ++ "/deno.json" <> dir ++ "/deno.jsonc")
      by (intros Heq; apply str_app_cancel_l in Heq; discriminate).
    apply String.eqb_neq in Hne. rewrite Hne, fs_read_filter, E1, String.eqb_refl.
    + reflexivity.
    + apply String.eqb_neq in Hne. exact Hne.
Qed.

(** C8: if [JSONC.parse] reads back what [updateDenoJson] writes, then a
    second run of [updateDenoJson] with the [updateProject] callback on the
    file system left by a first run writes nothing and reports the same
    path, and the content it serializes equals the file's content up to
    surrounding white space. *)
Theorem updateDenoJson_second_run_no_write (parse : string -> option json) (fs : fsys)
  (dir : string) (r1 : bool * option string) (fs1 : fsys) :
  (forall c j j', parse c = Some j -> edit_config j = Some j' ->
     parse (stringify 0 j' ++ nl) = Some j') ->
  updateDenoJson parse fs dir edit_config = Some (r1, fs1) ->
  updateDenoJson parse fs1 dir edit_config = Some ((false, snd r1), fs1) /\
  (forall p c1, config_file fs1 dir = Some (p, c1) ->
     newContent parse edit_config c1 = Some (trim c1)).
Proof.
  intros Hround H. unfold updateDenoJson in H.
  destruct (config_file fs dir) as [[p c]|] eqn:Ecf.
  - destruct (newContent parse edit_config c) as [nc|] eqn:Enc; [|discriminate].
    destruct (negb (String.eqb nc (trim c))) eqn:Ew; inversion H; subst; clear H.
    + unfold newContent in Enc.
      destruct (parse c) as [j|] eqn:Ep; [|discriminate].
      destruct (edit_config j) as [j'|] eqn:Ej; [|discriminate].
      inversion Enc; subst; clear Enc.
      pose proof (Hround c j j' Ep Ej) as Hp.
      pose proof (edit_config_idem j j' Ej) as Hi.
      destruct (stringify_edges j' (edit_config_shape j j' Ej)) as (c0 & s0 & c1 & r & E0 & S0 & E1 & S1).
      pose proof (trim_app_nl _ c0 c1 s0 r E0 S0 E1 S1) as Ht.
      pose proof (config_file_write fs dir p c (stringify 0 j' ++ nl) Ecf) as Ecf1.
      assert (Hn : newContent parse edit_config (stringify 0 j' ++ nl) = Some (stringify 0 j'))
        by (unfold newContent; rewrite Hp, Hi; reflexivity).
      split.
      * unfold updateDenoJson. rewrite Ecf1, Hn, Ht, String.eqb_refl. reflexivity.
      * intros p' c1' Hc. rewrite Ecf1 in Hc. inversion Hc; subst. rewrite Hn, Ht. reflexivity.
    + apply Bool.negb_false_iff, String.eqb_eq in Ew. split.
      * unfold updateDenoJson. rewrite Ecf, Enc, Ew, String.eqb_refl. reflexivity.
      * intros p' c1' Hc. rewrite Ecf in Hc. inversion Hc; subst p' c1'. rewrite Enc, Ew. reflexivity.
  - inversion H; subst. split.
    + unfold updateDenoJson. rewrite Ecf. reflexivity.
    + intros p c1 Hc. rewrite Ecf in Hc. discriminate.
Qed.

Lemma updateDenoJson_second_run_no_write_witness :
  exists r1 fs1,
    (forall c j j', legacyConfigParse c = Some j -> edit_config j = Some j' ->
       legacyConfigParse (stringify 0 j' ++ nl) = Some j') /\
    updateDenoJson legacyConfigParse legacyFs "/app" edit_config = Some (r1, fs1) /\
    r1 = (true, Some "/app/deno.json") /\
    updateDenoJson legacyConfigParse fs1 "/app" edit_config = Some ((false, snd r1), fs1) /\
    (forall p c1, config_file fs1 "/app" = Some (p, c1) ->
       newContent legacyConfigParse edit_config c1 = Some (trim c1)).
Proof.
  assert (Hround : forall c j j', legacyConfigParse c = Some j -> edit_config j = Some j' ->
            legacyConfigParse (stringify 0 j' ++ nl) = Some j').
  { intros c j j' Hp He. unfold legacyConfigParse in Hp.
    destruct (String.eqb c legacyDenoJson).
    - inversion Hp; subst. vm_compute in He. inversion He; subst. vm_compute. reflexivity.
    - destruct (String.eqb c (stringify 0 migratedConfig ++ nl)); [|discriminate].
      inversion Hp; subst. vm_compute in He. inversion He; subst. vm_compute. reflexivity. }
  destruct (updateDenoJson legacyConfigParse legacyFs "/app" edit_config)
    as [[r1 fs1]|] eqn:E; [|vm_compute in E; discriminate].
  exists r1, fs1. split; [exact Hround|]. split; [reflexivity|].
  split; [vm_compute in E; inversion E; reflexivity|].
  exact (updateDenoJson_second_run_no_write legacyConfigParse legacyFs "/app" r1 fs1 Hround E).
Defined.

End Manifest.

(** ** Phase 2 of [updateProject] *)

Module Project.

Lemma fold_bump (upd : string -> option bool) (l : list string) (a b : nat) :
  fold_left (bump upd) l (a, b) =
  (a + length (filter (succeeded upd) l), b + length (filter (changed upd) l)).
Proof.
  revert a b; induction l as [|p l IH]; intros a b; simpl; [f_equal; lia|].
  unfold bump at 2, succeeded at 1, changed at 1. simpl.
  destruct (upd p) as [[]|]; simpl; rewrite IH; f_equal; lia.
Qed.

Lemma length_filter_perm (f : string -> bool) (l l' : list string) :
  Permutation l l' -> length (filter f l) = length (filter f l').
Proof.
  induction 1 as [|x l l' _ IH|x y l|l l' l'' _ IH1 _ IH2]; simpl.
  - reflexivity.
  - destruct (f x); simpl; auto.
  - destruct (f x), (f y); simpl; reflexivity.
  - congruence.
Qed.

Lemma failed_results (upd : string -> option bool) (sfs : list string) :
  filter (fun r => negb (success r)) (map (task_result upd) sfs) =
  map (task_result upd) (filter (failed upd) sfs).
Proof.
  induction sfs as [|p sfs IH]; [reflexivity|]. simpl.
  rewrite IH. unfold failed. destruct (upd p) as [m|] eqn:E.
  - assert (Ht : task_result upd p = mkFileResult true m p)
      by (unfold task_result; rewrite E; reflexivity).
    rewrite Ht. reflexivity.
  - assert (Ht : task_result upd p = mkFileResult false false p)
      by (unfold task_result; rewrite E; reflexivity).
    simpl. rewrite Ht. reflexivity.
Qed.

Lemma task_result_path (upd : string -> option bool) (p : string) :
  fr_path (task_result upd p) = p.
Proof. unfold task_result. destruct (upd p); reflexivity. Qed.

(** C9: whatever the order [done_order] in which the per-file tasks
    settle, each file's result depends on that file alone, the summary
    counts every file that succeeded (also when others failed), and
    [errors] is the number of files whose update threw, whose paths are
    the ones reported. *)
Theorem updateProjectFiles_errors_isolated (configUpdated0 : bool)
  (upd : string -> option bool) (sfs done_order : list string) :
  Permutation done_order sfs ->
  errors (updateProjectFiles configUpdated0 upd sfs done_order) =
    length (filter (failed upd) sfs) /\
  errorPaths (updateProjectFiles configUpdated0 upd sfs done_order) =
    filter (failed upd) sfs /\
  filesProcessed (updateProjectFiles configUpdated0 upd sfs done_order) =
    length (filter (succeeded upd) sfs) /\
  filesModified (updateProjectFiles configUpdated0 upd sfs done_order) =
    length (filter (changed upd) sfs) /\
  configUpdated (updateProjectFiles configUpdated0 upd sfs done_order) = configUpdated0.
Proof.
  intros Hp. unfold updateProjectFiles. rewrite fold_bump. simpl.
  rewrite failed_results, length_map, map_map.
  rewrite (length_filter_perm (succeeded upd) _ _ Hp), (length_filter_perm (changed upd) _ _ Hp).
  repeat split.
  induction (filter (failed upd) sfs) as [|p ps IH]; [reflexivity|].
  simpl. rewrite task_result_path, IH. reflexivity.
Qed.

Lemma updateProjectFiles_errors_isolated_witness :
  Permutation ["/app/routes/b.tsx"; "/app/main.ts"; "/app/routes/a.tsx"]
              ["/app/routes/a.tsx"; "/app/routes/b.tsx"; "/app/main.ts"] /\
  updateProjectFiles false
    (fun p => if String.eqb p "/app/routes/b.tsx" then None
              else Some (String.eqb p "/app/routes/a.tsx"))
    ["/app/routes/a.tsx"; "/app/routes/b.tsx"; "/app/main.ts"]
    ["/app/routes/b.tsx"; "/app/main.ts"; "/app/routes/a.tsx"] =
  mkProjectResult false 2 1 1 ["/app/routes/b.tsx"] /\
  length (filter (failed (fun p => if String.eqb p "/app/routes/b.tsx" then None
                                   else Some (String.eqb p "/app/routes/a.tsx")))
            ["/app/routes/a.tsx"; "/app/routes/b.tsx"; "/app/main.ts"]) = 1.
Proof.
  assert (Hp : Permutation ["/app/routes/b.tsx"; "/app/main.ts"; "/app/routes/a.tsx"]
                           ["/app/routes/a.tsx"; "/app/routes/b.tsx"; "/app/main.ts"]).
  { apply Permutation_sym.
    exact (Permutation_cons_append ["/app/routes/b.tsx"; "/app/main.ts"] "/app/routes/a.tsx"). }
  split; [exact Hp|]. split; [vm_compute; reflexivity|].
  destruct (updateProjectFiles_errors_isolated false
    (fun p => if String.eqb p "/app/routes/b.tsx" then None
              else Some (String.eqb p "/app/routes/a.tsx"))
    ["/app/routes/a.tsx"; "/app/routes/b.tsx"; "/app/main.ts"]
    ["/app/routes/b.tsx"; "/app/main.ts"; "/app/routes/a.tsx"] Hp) as [He _].
  rewrite <- He. vm_compute. reflexivity.
Defined.

End Project.

(** ** More of [maybePrependReqVar] *)

Module ParamsMore.

(** A lone parameter whose text is neither [req] nor [_req] (an already
    migrated [ctx], a destructuring pattern, ...) is left as it is, and so
    is the body. *)
Theorem single_other_param_unchanged (k : funKind) (nm : string) (b : binding)
  (ty : option string) (body : node) (st : ImportState) (inferred : bool) :
  binding_text b <> "req" -> binding_text b <> "_req" ->
  maybePrependReqVar (mkFunc k nm [mkParam b ty] body) st inferred =
  (mkFunc k nm [mkParam b ty] body, st).
Proof.
  intros H1 H2. apply String.eqb_neq in H1, H2.
  unfold maybePrependReqVar. cbn - [binding_text]. rewrite H1, H2.
  destruct k; try destruct (is_block body); reflexivity.
Qed.

Lemma single_other_param_unchanged_witness :
  binding_text (BId "ctx") <> "req" /\ binding_text (BId "ctx") <> "_req" /\
  maybePrependReqVar (mkFunc FMethod "GET" [mkParam (BId "ctx") None] (Node KBlock []))
    emptyImportState true =
  (mkFunc FMethod "GET" [mkParam (BId "ctx") None] (Node KBlock []), emptyImportState).
Proof.
  assert (H1 : binding_text (BId "ctx") <> "req") by discriminate.
  assert (H2 : binding_text (BId "ctx") <> "_req") by discriminate.
  split; [exact H1|]. split; [exact H2|].
  exact (single_other_param_unchanged FMethod "GET" (BId "ctx") None (Node KBlock [])
           emptyImportState true H1 H2).
Defined.

(** For [(n, c, ...)] with an identifier [c] as second parameter and a
    block body, [n] not starting with [_]: the first parameter is dropped
    and [const n = ctx.req] is inserted, reading [ctx] whatever the name
    [c] of the surviving parameter; its [RouteContext] annotation becomes
    [FreshContext] (registered in the core set), any other annotation is
    kept. *)
Theorem two_params_req_from_ctx (k : funKind) (nm n c : string) (ty0 ty1 : option string)
  (rest : list param) (ss : list node) (st : ImportState) (inferred : bool) :
  starts_with "_" n = false ->
  maybePrependReqVar
    (mkFunc k nm (mkParam (BId n) ty0 :: mkParam (BId c) ty1 :: rest) (Node KBlock ss)) st inferred =
  (mkFunc k nm
     (mkParam (BId c)
        (if option_eq_string ty1 (Some "RouteContext") then Some "FreshContext" else ty1) :: rest)
     (Node KBlock (const_stmt n (prop (ident "ctx") "req") :: ss)),
   if option_eq_string ty1 (Some "RouteContext") then add_core "FreshContext" st else st).
Proof.
  intros Hn. unfold maybePrependReqVar. cbn - [starts_with option_eq_string].
  rewrite Hn. destruct (option_eq_string ty1 (Some "RouteContext")), k; reflexivity.
Qed.

Lemma two_params_req_from_ctx_witness :
  starts_with "_" "req" = false /\
  maybePrependReqVar
    (mkFunc FArrow "" [mkParam (BId "req") None; mkParam (BId "context") (Some "RouteContext")]
       (Node KBlock [])) emptyImportState false =
  (mkFunc FArrow "" [mkParam (BId "context") (Some "FreshContext")]
     (Node KBlock [const_stmt "req" (prop (ident "ctx") "req")]),
   add_core "FreshContext" emptyImportState).
Proof.
  split; [reflexivity|].
  exact (two_params_req_from_ctx FArrow "" "req" "context" None (Some "RouteContext") []
           [] emptyImportState false eq_refl).
Defined.

(** An arrow function [(req) => expr] whose body is not a block still has
    its parameter renamed to [ctx] (and annotated when types are not
    inferred) before the updater gives up on it: the body is left as it
    is, so it keeps reading [req]. *)
Theorem arrow_expression_body_param_renamed (nm : string) (body : node)
  (st : ImportState) (inferred : bool) :
  is_block body = false ->
  maybePrependReqVar (mkFunc FArrow nm [mkParam (BId "req") None] body) st inferred =
  (mkFunc FArrow nm [mkParam (BId "ctx") (if inferred then None else Some "FreshContext")] body,
   if inferred then st else add_core "FreshContext" st).
Proof.
  intros Hb. unfold maybePrependReqVar. cbn - [is_block]. rewrite Hb.
  destruct inferred; reflexivity.
Qed.

Lemma arrow_expression_body_param_renamed_witness :
  is_block (call (ident "json") [ident "req"]) = false /\
  maybePrependReqVar
    (mkFunc FArrow "" [mkParam (BId "req") None] (call (ident "json") [ident "req"]))
    emptyImportState true =
  (mkFunc FArrow "" [mkParam (BId "ctx") None] (call (ident "json") [ident "req"]),
   emptyImportState).
Proof.
  split; [reflexivity|].
  exact (arrow_expression_body_param_renamed "" (call (ident "json") [ident "req"])
           emptyImportState true eq_refl).
Defined.

Ltac split_ifs :=
  repeat match goal with
         | |- context [if ?b then _ else _] => destruct b
         | |- context [match ?x with _ => _ end] =>
           match type of x with
           | list param => destruct x
           | option binding => destruct x
           | binding => destruct x
           | list string => destruct x
           | funKind => destruct x
           end
         end.

(** [maybePrependReqVar] touches the import sets only by adding
    [FreshContext] to the core set. *)
Theorem import_state_only_FreshContext (m : func) (st : ImportState) (inferred : bool) :
  snd (maybePrependReqVar m st inferred) = st \/
  snd (maybePrependReqVar m st inferred) = add_core "FreshContext" st.
Proof.
  unfold maybePrependReqVar. destruct (fparams m) as [|p0 rest]; [left; reflexivity|].
  cbv zeta. split_ifs; cbn; auto.
Qed.

Lemma insert_stmt0_block (s : node) (pre ss : list node) :
  insert_stmt0 s (Node KBlock (app pre ss)) = Node KBlock (app (s :: pre) ss).
Proof. reflexivity. Qed.

(** For a block body, [maybePrependReqVar] keeps the function's kind and
    name, never adds parameters, and only puts at most two new statements
    before the original statements, which it keeps in order. *)
Theorem body_statements_kept (m : func) (st : ImportState) (inferred : bool) (ss : list node) :
  fbody m = Node KBlock ss ->
  fkind (fst (maybePrependReqVar m st inferred)) = fkind m /\
  fname (fst (maybePrependReqVar m st inferred)) = fname m /\
  length (fparams (fst (maybePrependReqVar m st inferred))) <= length (fparams m) /\
  exists pre, fbody (fst (maybePrependReqVar m st inferred)) = Node KBlock (app pre ss) /\
              length pre <= 2.
Proof.
  intros Hb. destruct m as [k nm ps body]. simpl in Hb. subst body.
  unfold maybePrependReqVar. cbn [fparams fkind fname fbody].
  destruct ps as [|p0 rest].
  { cbn. repeat split; [lia|]. exists []. split; [reflexivity|cbn; lia]. }
  cbv zeta. split_ifs; cbn;
    (repeat split; [try lia..|]);
    first [ exists []; split; [reflexivity|cbn; lia]
          | refine (ex_intro _ (cons _ nil) _); split; [reflexivity|cbn; lia]
          | refine (ex_intro _ (cons _ (cons _ nil)) _); split; [reflexivity|cbn; lia] ].
Qed.

Lemma body_statements_kept_witness :
  fbody (mkFunc FArrow "" [mkParam (BId "req") None; mkParam (BObj ["remoteAddr"] " " " ") None]
           (Node KBlock [Node KReturnStatement []])) = Node KBlock [Node KReturnStatement []] /\
  exists pre,
    fbody (fst (maybePrependReqVar
      (mkFunc FArrow "" [mkParam (BId "req") None; mkParam (BObj ["remoteAddr"] " " " ") None]
         (Node KBlock [Node KReturnStatement []])) emptyImportState true)) =
    Node KBlock (app pre [Node KReturnStatement []]) /\ length pre <= 2.
Proof.
  split; [reflexivity|].
  destruct (body_statements_kept
    (mkFunc FArrow "" [mkParam (BId "req") None; mkParam (BObj ["remoteAddr"] " " " ") None]
       (Node KBlock [Node KReturnStatement []])) emptyImportState true [Node KReturnStatement []]
    eq_refl) as (_ & _ & _ & H).
  exact H.
Defined.

End ParamsMore.

(** ** More of the member rewriter and its walker *)

Module WalkerMore.
Import Paths.

Lemma rwMember_quiet : forall (n : node) (p : path) (t : node),
  quiet n = true -> rwMember n p t = t.
Proof.
  fix IH 1. intros [k cs] p t Hq.
  destruct k; try reflexivity.
  destruct cs as [|first rest]; [reflexivity|].
  cbn [quiet] in Hq. apply andb_prop in Hq. destruct Hq as [Hh Hall].
  apply andb_prop in Hh. destruct Hh as [H1 H2].
  apply negb_true_iff in H1, H2.
  cbn [rwMember]. rewrite H1, H2.
  cbn [forallb] in Hall. apply andb_prop in Hall.
  pose proof (IH first (app p [0]) t (proj1 Hall)) as Hr.
  destruct first as [[] fcs]; try reflexivity. exact Hr.
Qed.

Lemma quiet_get (t : node) (p : path) (n : node) :
  quiet t = true -> get t p = Some n -> quiet n = true.
Proof.
  revert t. induction p as [|i p IH]; intros [k cs] Hq Hg.
  - inversion Hg; subst. exact Hq.
  - cbn [get node_children] in Hg. destruct (nth_error cs i) as [c|] eqn:E; [|discriminate].
    apply (IH c); [|exact Hg].
    cbn [quiet] in Hq. apply andb_prop in Hq. destruct Hq as [_ Hall].
    rewrite forallb_forall in Hall. apply Hall. eapply nth_error_In. exact E.
Qed.

Lemma fold_left_fixed {A B} (f : A -> B -> A) (a : A) (xs : list B) :
  (forall x, f a x = a) -> fold_left f xs a = a.
Proof. intros H. induction xs as [|x xs IH]; simpl; [reflexivity|]. rewrite H. exact IH. Qed.

Lemma rewriteCtxMethods_quiet (fuel : nat) : forall (ps : list path) (t : node),
  quiet t = true -> rewriteCtxMethods fuel ps t = t.
Proof.
  induction fuel as [|fuel IH]; intros ps t Hq; [reflexivity|].
  cbn [rewriteCtxMethods]. apply fold_left_fixed. intros p.
  destruct (get t p) as [[k cs]|] eqn:Eg; [|reflexivity].
  destruct k; try reflexivity.
  all: try (unfold rewriteCtxMemberName; rewrite Eg; apply rwMember_quiet;
            exact (quiet_get t p _ Hq Eg)).
  all: try (rewrite (IH _ t Hq), (IH _ t Hq); reflexivity).
  all: try (destruct cs; [reflexivity|apply IH, Hq]).
  all: try (apply fold_left_fixed; intros i;
            destruct (get t (app p [i])) as [[k' [|c cs']]|]; try reflexivity; apply IH, Hq).
  all: destruct (ends_with _ _); [apply IH, Hq|reflexivity].
Qed.

(** The rewriting of a handler body ([rewriteCtxMethods] over its
    descendant statements) leaves the body exactly as it is when no
    property access in it is [ctx.remoteAddr] or ends in
    [renderNotFound]. *)
Theorem rewriteBody_quiet_unchanged (body : node) :
  quiet body = true -> rewriteBody body = body.
Proof. intros Hq. unfold rewriteBody. apply rewriteCtxMethods_quiet, Hq. Qed.

Lemma rewriteBody_quiet_unchanged_witness :
  quiet (Node KBlock [Node KReturnStatement [call (prop (ident "ctx") "render") []]]) = true /\
  rewriteBody (Node KBlock [Node KReturnStatement [call (prop (ident "ctx") "render") []]]) =
  Node KBlock [Node KReturnStatement [call (prop (ident "ctx") "render") []]].
Proof.
  split; [reflexivity|]. apply rewriteBody_quiet_unchanged. reflexivity.
Defined.

End WalkerMore.

(** ** More of the manifest edit *)

Module ManifestMore.
Import Manifest.

Lemma obj_get_edit_imports (m : list (string * json)) :
  obj_get "fresh" (edit_imports m) = Some (JStr ("jsr:@fresh/core@^" ++ FRESH_VERSION)) /\
  obj_get "preact" (edit_imports m) = Some (JStr ("npm:preact@^" ++ PREACT_VERSION)) /\
  obj_get "@preact/signals" (edit_imports m) =
    Some (JStr ("npm:@preact/signals@^" ++ PREACT_SIGNALS_VERSION)) /\
  obj_get "$fresh/" (edit_imports m) = None /\
  obj_get "@preact/signals-core" (edit_imports m) = None /\
  obj_get "preact-render-to-string" (edit_imports m) = None.
Proof.
  unfold edit_imports. getsimp. repeat split; reflexivity.
Qed.

(** The first part of the [updateProject] callback: the value of
    [imports] after it runs, and the object [lock] has been deleted from. *)
Lemma edit_config_JObj (kvs : list (string * json)) (v' : json) :
  edit_config (JObj kvs) = Some v' ->
  exists kvs1,
    haskey "lock" kvs1 = false /\
    (forall k, k <> "imports" -> k <> "lock" -> obj_get k kvs1 = obj_get k kvs) /\
    (match obj_get "imports" kvs with
     | Some (JArr _) => obj_get "imports" kvs1 = obj_get "imports" kvs
     | Some (JObj m) => obj_get "imports" kvs1 = Some (JObj (edit_imports m))
     | _ => obj_get "imports" kvs1 = Some (JObj (edit_imports []))
     end) /\
    match obj_get "tasks" kvs1 with
    | Some JNull => False
    | Some (JObj t) => v' = JObj (obj_set "tasks" (JObj (edit_tasks t)) kvs1)
    | _ => v' = JObj kvs1
    end.
Proof.
  unfold edit_config; cbv beta iota.
  assert (Hi : forall kvs1,
    match obj_get "imports" kvs with
    | Some JNull => None
    | Some (JObj m) => Some (obj_set "imports" (JObj (edit_imports m)) kvs)
    | Some (JArr _) => Some kvs
    | _ => Some (obj_set "imports" (JObj (edit_imports [])) kvs)
    end = Some kvs1 ->
    (forall k, k <> "imports" -> obj_get k kvs1 = obj_get k kvs) /\
    match obj_get "imports" kvs with
    | Some (JArr _) => obj_get "imports" kvs1 = obj_get "imports" kvs
    | Some (JObj m) => obj_get "imports" kvs1 = Some (JObj (edit_imports m))
    | _ => obj_get "imports" kvs1 = Some (JObj (edit_imports []))
    end).
  { intros kvs1 H. destruct (obj_get "imports" kvs) as [[| | | | |m]|] eqn:E;
      inversion H; subst; clear H;
      (split; [intros k Hk; try reflexivity; apply obj_get_set_other, Hk|]);
      first [reflexivity | assumption | apply obj_get_set_same]. }
  destruct (match obj_get "imports" kvs with
            | Some JNull => None
            | Some (JObj m) => Some (obj_set "imports" (JObj (edit_imports m)) kvs)
            | Some (JArr _) => Some kvs
            | _ => Some (obj_set "imports" (JObj (edit_imports [])) kvs)
            end) as [kvs1|] eqn:E1; [|discriminate].
  destruct (Hi kvs1 eq_refl) as [Hk Him]. clear Hi E1.
  cbv beta iota zeta. intros H.
  exists (if existsb (fun kv => String.eqb "lock" (fst kv)) kvs1
          then obj_delete "lock" kvs1 else kvs1).
  split; [destruct (existsb _ kvs1) eqn:E; [apply lacks_delete_same|exact E]|].
  split.
  { intros k H1 H2. destruct (existsb _ kvs1);
      [rewrite obj_get_delete_other by exact H2|]; apply Hk, H1. }
  split.
  { destruct (existsb _ kvs1); [rewrite obj_get_delete_other by discriminate|]; exact Him. }
  destruct (obj_get "tasks" _) as [[| | | | |t]|]; inversion H; reflexivity.
Qed.

(** When the [updateProject] callback succeeds on an object, [lock] is
    gone, and unless [imports] was an array, [imports] is an object mapping
    [fresh], [preact] and [@preact/signals] to the new versions and without
    [$fresh/], [@preact/signals-core] and [preact-render-to-string]. *)
Theorem edit_config_result (kvs : list (string * json)) (v' : json) :
  edit_config (JObj kvs) = Some v' ->
  exists kvs', v' = JObj kvs' /\ haskey "lock" kvs' = false /\
  ((forall xs, obj_get "imports" kvs <> Some (JArr xs)) ->
   exists m, obj_get "imports" kvs' = Some (JObj m) /\
     obj_get "fresh" m = Some (JStr ("jsr:@fresh/core@^" ++ FRESH_VERSION)) /\
     obj_get "preact" m = Some (JStr ("npm:preact@^" ++ PREACT_VERSION)) /\
     obj_get "@preact/signals" m =
       Some (JStr ("npm:@preact/signals@^" ++ PREACT_SIGNALS_VERSION)) /\
     obj_get "$fresh/" m = None /\
     obj_get "@preact/signals-core" m = None /\
     obj_get "preact-render-to-string" m = None).
Proof.
  intros H. destruct (edit_config_JObj kvs v' H) as (kvs1 & Hl & _ & Him & Ht).
  assert (Hm : (forall xs, obj_get "imports" kvs <> Some (JArr xs)) ->
     exists m, obj_get "imports" kvs1 = Some (JObj (edit_imports m))).
  { intros Hna. destruct (obj_get "imports" kvs) as [[| | | |xs|m]|];
      try (eexists; exact Him); exfalso; exact (Hna xs eq_refl). }
  destruct (obj_get "tasks" kvs1) as [[| | | | |t]|]; try contradiction; subst v';
    eexists; (split; [reflexivity|]).
  all: split; [first [exact Hl | apply lacks_set_other; [exact Hl|discriminate]]|].
  all: intros Hna; destruct (Hm Hna) as [m Hm1]; exists (edit_imports m).
  all: try rewrite obj_get_set_other by discriminate.
  all: split; [exact Hm1|apply obj_get_edit_imports].
Qed.

Lemma edit_config_result_witness :
  edit_config legacyConfig = Some migratedConfig /\
  exists kvs', migratedConfig = JObj kvs' /\ haskey "lock" kvs' = false.
Proof.
  assert (H : edit_config legacyConfig = Some migratedConfig) by (vm_compute; reflexivity).
  split; [exact H|].
  destruct (edit_config_result _ migratedConfig H) as (kvs' & E & Hl & _).
  exists kvs'. split; [exact E|exact Hl].
Defined.

(** Every top-level key other than [imports], [lock] and [tasks] keeps
    its value through the [updateProject] callback. *)
Theorem edit_config_other_keys (kvs : list (string * json)) (v' : json) (k : string) :
  edit_config (JObj kvs) = Some v' ->
  k <> "imports" -> k <> "lock" -> k <> "tasks" ->
  exists kvs', v' = JObj kvs' /\ obj_get k kvs' = obj_get k kvs.
Proof.
  intros H H1 H2 H3. destruct (edit_config_JObj kvs v' H) as (kvs1 & _ & Hk & _ & Ht).
  destruct (obj_get "tasks" kvs1) as [[| | | | |t]|]; try contradiction; subst v';
    eexists; (split; [reflexivity|]).
  all: try rewrite obj_get_set_other by exact H3.
  all: apply Hk; assumption.
Qed.

Lemma edit_config_other_keys_witness :
  edit_config (JObj [("name", JStr "app"); ("lock", JBool true)]) =
    Some (JObj [("name", JStr "app");
                ("imports", JObj [("fresh", JStr "jsr:@fresh/core@^2.0.0-alpha.34");
                                  ("preact", JStr "npm:preact@^10.26.6");
                                  ("@preact/signals", JStr "npm:@preact/signals@^2.0.4")])]) /\
  exists kvs', JObj [("name", JStr "app");
                     ("imports", JObj [("fresh", JStr "jsr:@fresh/core@^2.0.0-alpha.34");
                                       ("preact", JStr "npm:preact@^10.26.6");
                                       ("@preact/signals", JStr "npm:@preact/signals@^2.0.4")])] =
               JObj kvs' /\ obj_get "name" kvs' = Some (JStr "app").
Proof.
  assert (H : edit_config (JObj [("name", JStr "app"); ("lock", JBool true)]) =
    Some (JObj [("name", JStr "app");
                ("imports", JObj [("fresh", JStr "jsr:@fresh/core@^2.0.0-alpha.34");
                                  ("preact", JStr "npm:preact@^10.26.6");
                                  ("@preact/signals", JStr "npm:@preact/signals@^2.0.4")])]))
    by (vm_compute; reflexivity).
  split; [exact H|].
  destruct (edit_config_other_keys _ _ "name" H ltac:(discriminate) ltac:(discriminate)
              ltac:(discriminate)) as (kvs' & E & Hg).
  exists kvs'. split; [exact E|]. rewrite Hg. reflexivity.
Defined.

(** The [updateProject] callback throws exactly when the configuration is
    not an object or array, or is an object whose [imports] or [tasks] is
    [null]; an array configuration comes back unchanged. *)
Theorem edit_config_throws_iff (v : json) :
  (edit_config v = None <->
   match v with
   | JObj kvs => obj_get "imports" kvs = Some JNull \/ obj_get "tasks" kvs = Some JNull
   | JArr _ => False
   | _ => True
   end) /\
  (forall xs, v = JArr xs -> edit_config v = Some v).
Proof.
  split; [|intros xs ->; reflexivity].
  destruct v as [| | | |xs|kvs]; try (split; [reflexivity|auto]).
  - split; [discriminate|contradiction].
  - unfold edit_config; cbv beta iota.
    assert (Ht : forall kvs1, (forall k, k <> "imports" -> obj_get k kvs1 = obj_get k kvs) ->
      match obj_get "tasks" (if existsb (fun kv => String.eqb "lock" (fst kv)) kvs1
                             then obj_delete "lock" kvs1 else kvs1) with
      | Some JNull => None
      | Some (JObj t) => Some (JObj (obj_set "tasks" (JObj (edit_tasks t))
                           (if existsb (fun kv => String.eqb "lock" (fst kv)) kvs1
                            then obj_delete "lock" kvs1 else kvs1)))
      | _ => Some (JObj (if existsb (fun kv => String.eqb "lock" (fst kv)) kvs1
                         then obj_delete "lock" kvs1 else kvs1))
      end = None <-> obj_get "tasks" kvs = Some JNull).
    { intros kvs1 Hk.
      assert (E : obj_get "tasks" (if existsb (fun kv => String.eqb "lock" (fst kv)) kvs1
                                   then obj_delete "lock" kvs1 else kvs1) =
                  obj_get "tasks" kvs).
      { destruct (existsb _ kvs1); [rewrite obj_get_delete_other by discriminate|];
          apply Hk; discriminate. }
      rewrite E. destruct (obj_get "tasks" kvs) as [[| | | | |]|]; split;
        try discriminate; reflexivity. }
    destruct (obj_get "imports" kvs) as [[| | | | |m]|] eqn:Ei.
    all: cbv beta iota zeta.
    1: split; [intros _; left; reflexivity|reflexivity].
    all: rewrite Ht by (intros k Hk; try reflexivity; apply obj_get_set_other, Hk).
    all: split; [intros H; right; exact H|intros [H|H]; [discriminate|exact H]].
Qed.

(** The [updateProject] callback is idempotent. *)
Theorem edit_config_idempotent (v v' : json) :
  edit_config v = Some v' -> edit_config v' = Some v'.
Proof. apply edit_config_idem. Qed.

Lemma edit_config_idempotent_witness :
  edit_config legacyConfig = Some migratedConfig /\
  edit_config migratedConfig = Some migratedConfig.
Proof.
  assert (H : edit_config legacyConfig = Some migratedConfig) by (vm_compute; reflexivity).
  split; [exact H|]. exact (edit_config_idempotent _ _ H).
Defined.

(** [updateDenoJson] writes at most one file, the one whose path it
    returns: when it reports [updated] it has written the serialized
    edit followed by a newline there, when it does not it has written
    nothing, and every other path reads as before. *)
Theorem updateDenoJson_frame (parse : string -> option json) (fs : fsys) (dir : string)
  (fn : json -> option json) (r : bool * option string) (fs1 : fsys) :
  updateDenoJson parse fs dir fn = Some (r, fs1) ->
  (fst r = false -> fs1 = fs) /\
  (fst r = true -> exists p c nc, snd r = Some p /\ config_file fs dir = Some (p, c) /\
     newContent parse fn c = Some nc /\ nc <> trim c /\ fs_read p fs1 = Some (nc ++ nl)) /\
  (forall q, snd r <> Some q -> fs_read q fs1 = fs_read q fs).
Proof.
  unfold updateDenoJson. intros H.
  destruct (config_file fs dir) as [[p c]|] eqn:Ecf.
  - destruct (newContent parse fn c) as [nc|] eqn:Enc; [|discriminate].
    destruct (negb (String.eqb nc (trim c))) eqn:Ew; inversion H; subst; clear H.
    + split; [discriminate|]. split.
      * intros _. exists p, c, nc. repeat split; try assumption.
        -- intros Heq. rewrite Heq, String.eqb_refl in Ew. discriminate.
        -- unfold fs_write. simpl. rewrite String.eqb_refl. reflexivity.
      * intros q Hq. unfold fs_write. simpl.
        assert (Hne : q <> p) by (intros ->; apply Hq; reflexivity).
        apply String.eqb_neq in Hne as Hne'. rewrite Hne'. apply fs_read_filter, Hne.
    + split; [reflexivity|]. split; [discriminate|reflexivity].
  - inversion H; subst. split; [reflexivity|]. split; [discriminate|reflexivity].
Qed.

Lemma updateDenoJson_frame_witness :
  updateDenoJson legacyConfigParse legacyFs "/app" edit_config =
    Some ((true, Some "/app/deno.json"),
          fs_write "/app/deno.json" (stringify 0 migratedConfig ++ nl) legacyFs) /\
  fs_read "/app/main.ts" (fs_write "/app/deno.json" (stringify 0 migratedConfig ++ nl) legacyFs) =
    fs_read "/app/main.ts" legacyFs.
Proof.
  assert (H : updateDenoJson legacyConfigParse legacyFs "/app" edit_config =
    Some ((true, Some "/app/deno.json"),
          fs_write "/app/deno.json" (stringify 0 migratedConfig ++ nl) legacyFs))
    by (vm_compute; reflexivity).
  split; [exact H|].
  destruct (updateDenoJson_frame _ _ _ _ _ _ H) as (_ & _ & Hq).
  apply Hq. discriminate.
Defined.

End ManifestMore.

(** ** More of the import pass *)

Module ImportsMore.

Definition nonimport (it : item) : bool := negb (is_import it).

Lemma insert_after_In (d : ImportDecl) (k : nat) (its : list item) (x : item) :
  In x (insert_after d k its) <-> In x (IImport d :: its).
Proof.
  revert k; induction its as [|it its IH]; intros [|k]; try reflexivity.
  simpl insert_after. simpl In. rewrite IH. simpl. tauto.
Qed.

Lemma insert_after_filter (d : ImportDecl) (k : nat) (its : list item) :
  filter nonimport (insert_after d k its) = filter nonimport its.
Proof.
  revert k; induction its as [|it its IH]; intros [|k]; try reflexivity.
  simpl. rewrite IH. reflexivity.
Qed.

Lemma addImportDeclaration_In (its : list item) (d : ImportDecl) (x : item) :
  In x (addImportDeclaration its d) <-> x = IImport d \/ In x its.
Proof.
  unfold addImportDeclaration. rewrite insert_after_In. simpl.
  split; intros [H|H]; auto.
Qed.

Ltac destruct_ifs :=
  repeat match goal with |- context [if ?c then _ else _] => destruct c end.

Lemma add_synth_In (a : ImportAcc) (its : list item) (x : item) :
  In x its -> In x (add_synthesized_imports a its).
Proof.
  intros H. unfold add_synthesized_imports; cbv zeta. destruct_ifs;
    repeat (apply addImportDeclaration_In; right); exact H.
Qed.

Lemma add_synth_filter (a : ImportAcc) (its : list item) :
  filter nonimport (add_synthesized_imports a its) = filter nonimport its.
Proof.
  unfold add_synthesized_imports; cbv zeta. destruct_ifs;
    unfold addImportDeclaration; rewrite ?insert_after_filter; reflexivity.
Qed.

Lemma add_synth_compat (a : ImportAcc) (its : list item) :
  compat (acc_imports a) <> [] ->
  In (IImport (mkImportDecl "fresh/compat" None None (compat (acc_imports a))))
     (add_synthesized_imports a its).
Proof.
  intros H. unfold add_synthesized_imports; cbv zeta.
  destruct (compat (acc_imports a)) as [|c cs]; [contradiction|].
  apply addImportDeclaration_In. left. reflexivity.
Qed.

Lemma add_synth_legacy_free (a : ImportAcc) (its : list item) :
  (forall d, In (IImport d) its -> legacy_free d) ->
  forall d, In (IImport d) (add_synthesized_imports a its) -> legacy_free d.
Proof.
  intros Hits.
  assert (Hadd : forall its0 d0, (forall d, In (IImport d) its0 -> legacy_free d) ->
            legacy_free d0 ->
            forall d, In (IImport d) (addImportDeclaration its0 d0) -> legacy_free d).
  { intros its0 d0 H0 Hd0 d Hd. apply addImportDeclaration_In in Hd.
    destruct Hd as [E|Hd]; [injection E as ->; exact Hd0|exact (H0 d Hd)]. }
  assert (Hc : forall sp ns, sp = "fresh" \/ sp = "fresh/runtime" \/ sp = "fresh/compat" ->
            legacy_free (mkImportDecl sp None None ns)).
  { intros sp ns Hsp. unfold legacy_free; simpl.
    destruct Hsp as [ -> | [ -> | -> ] ]; repeat split; intro Hq; discriminate. }
  unfold add_synthesized_imports; cbv zeta. destruct_ifs;
    repeat (apply Hadd; [|apply Hc; auto]); exact Hits.
Qed.

Lemma removeEmptyImport_Some (d d' : ImportDecl) :
  removeEmptyImport d = Some d' -> d' = d.
Proof.
  unfold removeEmptyImport.
  destruct (inamed d), (inamespace d), (idefault d); congruence.
Qed.

Lemma removeEmptyImport_named (d : ImportDecl) :
  inamed d <> [] -> removeEmptyImport d = Some d.
Proof.
  unfold removeEmptyImport. destruct (inamed d); [contradiction|reflexivity].
Qed.

Lemma rewrite_import_legacy_free (a : ImportAcc) (d d' : ImportDecl) :
  fst (rewrite_import a d) = Some d' -> legacy_free d'.
Proof.
  unfold rewrite_import.
  destruct (String.eqb (ispec d) "preact") eqn:E1;
    [|destruct (String.eqb (ispec d) "$fresh/server.ts") eqn:E2;
      [|destruct (String.eqb (ispec d) "$fresh/runtime.ts") eqn:E3]];
    simpl; intros H.
  - apply removeEmptyImport_Some in H. subst d'.
    apply String.eqb_eq in E1. unfold legacy_free; simpl. rewrite E1.
    split; [discriminate|]. split; [discriminate|]. intros _.
    split; intros Hin; apply filter_In in Hin; destruct Hin as [_ Hf]; discriminate.
  - apply removeEmptyImport_Some in H. subst d'.
    unfold legacy_free; simpl. repeat split; intro Hq; discriminate.
  - apply removeEmptyImport_Some in H. subst d'.
    unfold legacy_free; simpl. repeat split; intro Hq; discriminate.
  - injection H as <-. apply String.eqb_neq in E2, E3.
    unfold legacy_free. split; [exact E2|]. split; [exact E3|].
    intros Hp. rewrite Hp in E1. discriminate.
Qed.

Lemma rewrite_imports_legacy_free (a : ImportAcc) (its : list item) :
  forall d, In (IImport d) (fst (rewrite_imports a its)) -> legacy_free d.
Proof.
  revert a; induction its as [|it its IH]; intros a d Hd; [destruct Hd|].
  destruct it as [d0| | | | |]; simpl in Hd.
  1: { destruct (rewrite_import a d0) as [od a1] eqn:Er.
    specialize (IH a1). destruct (rewrite_imports a1 its) as [its2 a2].
    simpl in Hd, IH. destruct od as [d'|].
    + destruct Hd as [E|Hd]; [|exact (IH d Hd)].
      injection E as <-. apply (rewrite_import_legacy_free a d0). rewrite Er. reflexivity.
    + exact (IH d Hd). }
  all: specialize (IH a); destruct (rewrite_imports a its) as [its2 a2];
      simpl in Hd, IH; destruct Hd as [E|Hd]; [discriminate|exact (IH d Hd)].
Qed.

Lemma rewrite_imports_filter (a : ImportAcc) (its : list item) :
  filter nonimport (fst (rewrite_imports a its)) = filter nonimport its.
Proof.
  revert a; induction its as [|it its IH]; intros a; [reflexivity|].
  destruct it as [d0| | | | |]; simpl.
  1: { destruct (rewrite_import a d0) as [od a1].
    specialize (IH a1). destruct (rewrite_imports a1 its) as [its2 a2].
    simpl in IH |- *. destruct od; simpl; exact IH. }
  all: specialize (IH a); destruct (rewrite_imports a its) as [its2 a2];
      simpl in IH |- *; rewrite IH; reflexivity.
Qed.

Lemma update_items_imports (st : ImportState) (its : list item) (d : ImportDecl) :
  In (IImport d) its -> In (IImport d) (fst (update_items st its)).
Proof.
  revert st; induction its as [|it its IH]; intros st H; [destruct H|].
  simpl. destruct (update_item st it) as [it' st1] eqn:Eu.
  specialize (IH st1). destruct (update_items st1 its) as [its2 st2].
  simpl in IH |- *. destruct H as [E|H].
  - subst it. simpl in Eu. injection Eu as <- _. left. reflexivity.
  - right. exact (IH H).
Qed.

Lemma set_add_In (x y : string) (s : list string) :
  In y s \/ y = x -> In y (set_add x s).
Proof.
  unfold set_add. destruct (existsb (String.eqb x) s) eqn:E; intros [H|H].
  - exact H.
  - subst y. apply existsb_exists in E. destruct E as [z [Hz Ez]].
    apply String.eqb_eq in Ez. subst z. exact Hz.
  - apply in_or_app. left. exact H.
  - apply in_or_app. right. left. symmetry. exact H.
Qed.

Definition compat_step (c : list string) (n : string) : list string :=
  if existsb (String.eqb n) compat_names then set_add n c else c.

Lemma compat_fold_mono (l c : list string) (y : string) :
  In y c -> In y (fold_left compat_step l c).
Proof.
  revert c; induction l as [|n l IH]; intros c H; [exact H|].
  simpl. apply IH. unfold compat_step.
  destruct (existsb _ _); [apply set_add_In; left|]; exact H.
Qed.

Lemma compat_fold_In (l c : list string) (y : string) :
  In y l -> existsb (String.eqb y) compat_names = true -> In y (fold_left compat_step l c).
Proof.
  revert c; induction l as [|n l IH]; intros c H Hc; [destruct H|].
  simpl. destruct H as [<-|H].
  - apply compat_fold_mono. unfold compat_step. rewrite Hc.
    apply set_add_In. right. reflexivity.
  - exact (IH _ H Hc).
Qed.

Lemma rewrite_import_compat_mono (a : ImportAcc) (d : ImportDecl) (y : string) :
  In y (compat (acc_imports a)) -> In y (compat (acc_imports (snd (rewrite_import a d)))).
Proof.
  intros H. unfold rewrite_import.
  destruct (String.eqb (ispec d) "preact"); [exact H|].
  destruct (String.eqb (ispec d) "$fresh/server.ts"); [|destruct (String.eqb _ _); exact H].
  simpl. apply (compat_fold_mono (inamed d)). exact H.
Qed.

Lemma rewrite_imports_compat_mono (a : ImportAcc) (its : list item) (y : string) :
  In y (compat (acc_imports a)) ->
  In y (compat (acc_imports (snd (rewrite_imports a its)))).
Proof.
  revert a; induction its as [|it its IH]; intros a H; [exact H|].
  destruct it as [d0| | | | |]; simpl.
  1: { pose proof (rewrite_import_compat_mono a d0 y H) as H1.
    destruct (rewrite_import a d0) as [od a1]. simpl in H1.
    specialize (IH a1 H1). destruct (rewrite_imports a1 its). exact IH. }
  all: specialize (IH a H); destruct (rewrite_imports a its); exact IH.
Qed.

Lemma rewrite_imports_server_compat (a : ImportAcc) (its : list item) (d : ImportDecl)
  (n : string) :
  In (IImport d) its -> ispec d = "$fresh/server.ts" -> In n (inamed d) ->
  existsb (String.eqb n) compat_names = true ->
  In n (compat (acc_imports (snd (rewrite_imports a its)))).
Proof.
  intros Hin Hs Hn Hc. revert a; induction its as [|it its IH]; intros a; [destruct Hin|].
  destruct (in_inv Hin) as [E|Hin'].
  - subst it. simpl.
    assert (H1 : In n (compat (acc_imports (snd (rewrite_import a d))))).
    { unfold rewrite_import. rewrite Hs. simpl.
      exact (compat_fold_In (inamed d) (compat (acc_imports a)) n Hn Hc). }
    destruct (rewrite_import a d) as [od a1]. simpl in H1.
    pose proof (rewrite_imports_compat_mono a1 its n H1) as H2.
    destruct (rewrite_imports a1 its). exact H2.
  - specialize (IH Hin'). destruct it as [d0| | | | |]; simpl.
    1: { destruct (rewrite_import a d0) as [od a1].
      specialize (IH a1). destruct (rewrite_imports a1 its). exact IH. }
    all: specialize (IH a); destruct (rewrite_imports a its); exact IH.
Qed.

Lemma rewrite_imports_keeps (a : ImportAcc) (its : list item) (d : ImportDecl) :
  In (IImport d) its ->
  exists a', forall d', fst (rewrite_import a' d) = Some d' ->
    In (IImport d') (fst (rewrite_imports a its)).
Proof.
  revert a; induction its as [|it its IH]; intros a Hin; [destruct Hin|].
  destruct (in_inv Hin) as [E|Hin'].
  - subst it. exists a. intros d' Hd'. simpl.
    destruct (rewrite_import a d) as [od a1]. simpl in Hd'. subst od.
    destruct (rewrite_imports a1 its). left. reflexivity.
  - destruct it as [d0| | | | |]; simpl.
    1: { destruct (rewrite_import a d0) as [od a1].
      destruct (IH a1 Hin') as [a' Ha']. exists a'. intros d' Hd'.
      specialize (Ha' d' Hd'). destruct (rewrite_imports a1 its).
      destruct od; [right|]; exact Ha'. }
    all: destruct (IH a Hin') as [a' Ha']; exists a'; intros d' Hd';
        specialize (Ha' d' Hd'); destruct (rewrite_imports a its); right; exact Ha'.
Qed.

Lemma rewrite_import_server_kept (a : ImportAcc) (d : ImportDecl) (n : string) :
  ispec d = "$fresh/server.ts" -> In n (inamed d) ->
  existsb (String.eqb n) compat_names = false ->
  exists d', fst (rewrite_import a d) = Some d' /\ In n (inamed d') /\ ispec d' = "fresh".
Proof.
  intros Hs Hn Hc. unfold rewrite_import. rewrite Hs.
  rewrite (proj2 (String.eqb_neq "$fresh/server.ts" "preact") ltac:(discriminate)),
    String.eqb_refl.
  cbv beta iota zeta delta [fst].
  assert (Hk : In n (filter (fun n0 => negb (existsb (String.eqb n0) compat_names)) (inamed d)))
    by (apply filter_In; rewrite Hc; auto).
  rewrite removeEmptyImport_named.
  - eexists. split; [reflexivity|]. simpl. split; [|reflexivity].
    apply in_or_app. left. exact Hk.
  - assert (Hne : forall (l1 l2 : list string), In n l1 -> app l1 l2 <> []).
    { intros l1 l2 H1 E. apply app_eq_nil in E. destruct E as [E _].
      rewrite E in H1. destruct H1. }
    exact (Hne _ _ Hk).
Qed.

Lemma rewrite_import_modified_mono (a : ImportAcc) (d : ImportDecl) :
  modified a = true -> modified (snd (rewrite_import a d)) = true.
Proof.
  intros H. unfold rewrite_import.
  destruct (String.eqb (ispec d) "preact"); [simpl; rewrite H; reflexivity|].
  destruct (String.eqb (ispec d) "$fresh/server.ts"); [exact H|].
  destruct (String.eqb (ispec d) "$fresh/runtime.ts"); exact H.
Qed.

Lemma rewrite_imports_modified_mono (a : ImportAcc) (its : list item) :
  modified a = true -> modified (snd (rewrite_imports a its)) = true.
Proof.
  revert a; induction its as [|it its IH]; intros a H; [exact H|].
  destruct it as [d0| | | | |]; simpl.
  1: { pose proof (rewrite_import_modified_mono a d0 H) as H1.
    destruct (rewrite_import a d0) as [od a1]. simpl in H1.
    specialize (IH a1 H1). destruct (rewrite_imports a1 its). exact IH. }
  all: specialize (IH a H); destruct (rewrite_imports a its); exact IH.
Qed.

Lemma rewrite_imports_jsx (a : ImportAcc) (its : list item) (d : ImportDecl) :
  In (IImport d) its -> ispec d = "preact" ->
  In "h" (inamed d) \/ In "Fragment" (inamed d) ->
  modified (snd (rewrite_imports a its)) = true.
Proof.
  intros Hin Hs Hj. revert a; induction its as [|it its IH]; intros a; [destruct Hin|].
  destruct (in_inv Hin) as [E|Hin'].
  - subst it. simpl.
    assert (H1 : modified (snd (rewrite_import a d)) = true).
    { unfold rewrite_import. rewrite Hs. simpl.
      set (isJsx := fun n => String.eqb n "h" || String.eqb n "Fragment").
      assert (Hf : exists x, In x (filter isJsx (inamed d))).
      { destruct Hj as [Hj|Hj]; [exists "h"|exists "Fragment"];
          apply filter_In; split; [exact Hj|reflexivity|exact Hj|reflexivity]. }
      destruct (filter isJsx (inamed d)) as [|x xs];
        [destruct Hf as [x []]|apply orb_true_r]. }
    destruct (rewrite_import a d) as [od a1]. simpl in H1.
    pose proof (rewrite_imports_modified_mono a1 its H1) as H2.
    destruct (rewrite_imports a1 its). exact H2.
  - specialize (IH Hin'). destruct it as [d0| | | | |]; simpl.
    1: { destruct (rewrite_import a d0) as [od a1].
      specialize (IH a1). destruct (rewrite_imports a1 its). exact IH. }
    all: specialize (IH a); destruct (rewrite_imports a its); exact IH.
Qed.

Lemma handler_pass_imports (parse : string -> list item) (sf : SourceFile) (d : ImportDecl) :
  In (IImport d) (stripped_items parse sf) ->
  In (IImport d) (fst (if is_route_file (sf_path sf)
                       then update_items emptyImportState (stripped_items parse sf)
                       else (stripped_items parse sf, emptyImportState))).
Proof.
  intros H. destruct (is_route_file (sf_path sf)); [apply update_items_imports|]; exact H.
Qed.

Lemma rewrite_imports_unrelated (a : ImportAcc) (its : list item) :
  (forall d, In (IImport d) its ->
     ispec d <> "preact" /\ ispec d <> "$fresh/server.ts" /\ ispec d <> "$fresh/runtime.ts") ->
  rewrite_imports a its = (its, a).
Proof.
  revert a; induction its as [|it its IH]; intros a H; [reflexivity|].
  assert (H' : forall d, In (IImport d) its ->
     ispec d <> "preact" /\ ispec d <> "$fresh/server.ts" /\ ispec d <> "$fresh/runtime.ts")
    by (intros d Hd; apply H; right; exact Hd).
  destruct it as [d0| | | | |]; simpl; rewrite ?(IH a H'); try reflexivity.
  destruct (H d0 (or_introl eq_refl)) as (H1 & H2 & H3).
  unfold rewrite_import.
  apply String.eqb_neq in H1, H2, H3. rewrite H1, H2, H3. rewrite (IH a H'). reflexivity.
Qed.

(** After [updateFile] no import declaration of the file names
    [$fresh/server.ts] or [$fresh/runtime.ts], and no import from [preact]
    names [h] or [Fragment]. *)
Theorem updateFile_no_legacy_imports (parse : string -> list item) (sf : SourceFile)
  (d : ImportDecl) :
  In (IImport d) (sf_items (fst (updateFile parse sf))) ->
  ispec d <> "$fresh/server.ts" /\ ispec d <> "$fresh/runtime.ts" /\
  (ispec d = "preact" -> ~ In "h" (inamed d) /\ ~ In "Fragment" (inamed d)).
Proof.
  unfold updateFile; cbv zeta.
  destruct (if is_route_file (sf_path sf) then _ else _) as [its1 st].
  unfold import_pass.
  pose proof (rewrite_imports_legacy_free (mkImportAcc st false false false []) its1) as Hl.
  destruct (rewrite_imports (mkImportAcc st false false false []) its1) as [its2 a].
  simpl in Hl |- *. intros H. exact (add_synth_legacy_free a its2 Hl d H).
Qed.

Lemma updateFile_no_legacy_imports_witness :
  In (IImport (mkImportDecl "fresh" None None ["PageProps"; "FreshContext"]))
     (sf_items (fst (updateFile raw_parse oneLegacyImportFile))) /\
  "fresh" <> "$fresh/server.ts".
Proof.
  assert (H : In (IImport (mkImportDecl "fresh" None None ["PageProps"; "FreshContext"]))
     (sf_items (fst (updateFile raw_parse oneLegacyImportFile))))
    by (vm_compute; left; reflexivity).
  split; [exact H|].
  exact (proj1 (updateFile_no_legacy_imports _ _ _ H)).
Defined.

(** Every name a declaration imports from [$fresh/server.ts] is still
    imported after [updateFile]: from [fresh/compat] when it is one of the
    compatibility names, from [fresh] otherwise. *)
Theorem updateFile_server_names_kept (parse : string -> list item) (sf : SourceFile)
  (d : ImportDecl) (n : string) :
  In (IImport d) (stripped_items parse sf) -> ispec d = "$fresh/server.ts" ->
  In n (inamed d) ->
  exists d', In (IImport d') (sf_items (fst (updateFile parse sf))) /\ In n (inamed d') /\
    ispec d' = (if existsb (String.eqb n) compat_names then "fresh/compat" else "fresh").
Proof.
  intros Hin Hs Hn. apply handler_pass_imports in Hin.
  unfold updateFile; cbv zeta.
  destruct (if is_route_file (sf_path sf) then _ else _) as [its1 st]. simpl in Hin.
  unfold import_pass.
  pose proof (rewrite_imports_server_compat (mkImportAcc st false false false []) its1 d n
                Hin Hs Hn) as Hc.
  pose proof (rewrite_imports_keeps (mkImportAcc st false false false []) its1 d Hin) as Hk.
  destruct (rewrite_imports (mkImportAcc st false false false []) its1) as [its2 a].
  cbn [fst snd sf_items] in Hc, Hk |- *.
  destruct (existsb (String.eqb n) compat_names) eqn:Ec.
  - specialize (Hc eq_refl).
    exists (mkImportDecl "fresh/compat" None None (compat (acc_imports a))).
    split; [|split; [exact Hc|reflexivity]].
    apply add_synth_compat. intros E. rewrite E in Hc. destruct Hc.
  - destruct Hk as [a' Ha'].
    destruct (rewrite_import_server_kept a' d n Hs Hn Ec) as (d' & E & Hn' & Hs').
    exists d'. split; [|split; [exact Hn'|exact Hs']].
    apply add_synth_In. exact (Ha' d' E).
Qed.

Lemma updateFile_server_names_kept_witness :
  exists d', In (IImport d') (sf_items (fst (updateFile raw_parse oneLegacyImportFile))) /\
    In "Handlers" (inamed d') /\ ispec d' = "fresh/compat".
Proof.
  exact (updateFile_server_names_kept raw_parse oneLegacyImportFile
           (mkImportDecl "$fresh/server.ts" None None ["Handlers"; "PageProps"]) "Handlers"
           ltac:(vm_compute; right; left; reflexivity) eq_refl
           ltac:(simpl; left; reflexivity)).
Defined.

(** A file with an import from [preact] that names [h] or [Fragment] is
    always reported as modified. *)
Theorem updateFile_jsx_import_reported (parse : string -> list item) (sf : SourceFile)
  (d : ImportDecl) :
  In (IImport d) (stripped_items parse sf) -> ispec d = "preact" ->
  In "h" (inamed d) \/ In "Fragment" (inamed d) ->
  snd (updateFile parse sf) = true.
Proof.
  intros Hin Hs Hj. apply handler_pass_imports in Hin.
  unfold updateFile; cbv zeta.
  destruct (if is_route_file (sf_path sf) then _ else _) as [its1 st]. simpl in Hin.
  unfold import_pass.
  pose proof (rewrite_imports_jsx (mkImportAcc st false false false []) its1 d Hin Hs Hj) as Hm.
  destruct (rewrite_imports (mkImportAcc st false false false []) its1) as [its2 a].
  simpl in Hm |- *. rewrite Hm. apply orb_true_r.
Qed.

Lemma updateFile_jsx_import_reported_witness :
  snd (updateFile raw_parse oneLegacyImportFile) = true.
Proof.
  exact (updateFile_jsx_import_reported raw_parse oneLegacyImportFile
           (mkImportDecl "preact" None None ["h"; "Fragment"])
           ltac:(vm_compute; left; reflexivity) eq_refl
           ltac:(left; simpl; left; reflexivity)).
Defined.

(** Outside the route files [updateFile] changes only import
    declarations: the other items of the file (after the directive
    comments are stripped) come out unchanged and in order. *)
Theorem updateFile_nonroute_only_imports (parse : string -> list item) (sf : SourceFile) :
  is_route_file (sf_path sf) = false ->
  filter (fun it => negb (is_import it)) (sf_items (fst (updateFile parse sf))) =
  filter (fun it => negb (is_import it)) (stripped_items parse sf).
Proof.
  intros Hr. unfold updateFile; cbv zeta. rewrite Hr. unfold import_pass.
  pose proof (rewrite_imports_filter (mkImportAcc emptyImportState false false false [])
                (stripped_items parse sf)) as Hf.
  destruct (rewrite_imports _ (stripped_items parse sf)) as [its2 a].
  simpl in Hf |- *. change (filter nonimport (add_synthesized_imports a its2) =
                            filter nonimport (stripped_items parse sf)).
  rewrite add_synth_filter. exact Hf.
Qed.

Lemma updateFile_nonroute_only_imports_witness :
  is_route_file "/app/islands/Counter.tsx" = false /\
  filter (fun it => negb (is_import it))
    (sf_items (fst (updateFile raw_parse
       (mkSourceFile "/app/islands/Counter.tsx"
          [IImport (mkImportDecl "preact" None None ["h"]); IRaw "export const n = 1;"])))) =
  [IRaw "export const n = 1;"].
Proof.
  assert (Hr : is_route_file "/app/islands/Counter.tsx" = false) by (vm_compute; reflexivity).
  split; [exact Hr|].
  rewrite (updateFile_nonroute_only_imports raw_parse
            (mkSourceFile "/app/islands/Counter.tsx"
               [IImport (mkImportDecl "preact" None None ["h"]); IRaw "export const n = 1;"]) Hr).
  vm_compute. reflexivity.
Defined.

(** A file outside the routes, without directive comments and with no
    import from [preact], [$fresh/server.ts] or [$fresh/runtime.ts], is
    saved as it was and reported as not modified. *)
Theorem updateFile_unrelated_unchanged (parse : string -> list item) (sf : SourceFile) :
  is_route_file (sf_path sf) = false ->
  strip_directives (print_items (sf_items sf)) = print_items (sf_items sf) ->
  (forall d, In (IImport d) (sf_items sf) ->
     ispec d <> "preact" /\ ispec d <> "$fresh/server.ts" /\ ispec d <> "$fresh/runtime.ts") ->
  updateFile parse sf = (sf, false).
Proof.
  intros Hr Hs Hi. unfold updateFile; cbv zeta.
  assert (E : stripped_items parse sf = sf_items sf).
  { unfold stripped_items; cbv zeta. rewrite Hs, String.eqb_refl. reflexivity. }
  rewrite E, Hr. unfold import_pass.
  rewrite (rewrite_imports_unrelated _ _ Hi). simpl.
  rewrite String.eqb_refl. destruct sf. reflexivity.
Qed.

Lemma updateFile_unrelated_unchanged_witness :
  updateFile raw_parse
    (mkSourceFile "/app/utils/format.ts"
       [IImport (mkImportDecl "./dates.ts" None None ["toIso"]); IRaw "export const z = 1;"]) =
  (mkSourceFile "/app/utils/format.ts"
     [IImport (mkImportDecl "./dates.ts" None None ["toIso"]); IRaw "export const z = 1;"],
   false).
Proof.
  apply updateFile_unrelated_unchanged.
  - vm_compute. reflexivity.
  - vm_compute. reflexivity.
  - intros d Hd. simpl in Hd. destruct Hd as [E|[E|[]]]; [|discriminate].
    injection E as <-. simpl. repeat split; intro Hq; discriminate.
Defined.

End ImportsMore.

(** ** More of the summary of [updateProject] *)

Module ProjectMore.
Import Project.

Lemma succeeded_failed_count (upd : string -> option bool) (l : list string) :
  length (filter (succeeded upd) l) + length (filter (failed upd) l) = length l /\
  length (filter (changed upd) l) <= length (filter (succeeded upd) l).
Proof.
  induction l as [|p l [IH1 IH2]]; [simpl; lia|]. simpl.
  unfold succeeded in *; unfold failed in *; unfold changed in *.
  destruct (upd p) as [[]|]; simpl; lia.
Qed.

(** When every per-file task settles once, each file is counted either as
    processed or as an error, and the modified files are among the
    processed ones. *)
Theorem updateProjectFiles_accounting (configUpdated0 : bool)
  (upd : string -> option bool) (sfs done_order : list string) :
  Permutation done_order sfs ->
  filesProcessed (updateProjectFiles configUpdated0 upd sfs done_order) +
    errors (updateProjectFiles configUpdated0 upd sfs done_order) = length sfs /\
  filesModified (updateProjectFiles configUpdated0 upd sfs done_order) <=
    filesProcessed (updateProjectFiles configUpdated0 upd sfs done_order).
Proof.
  intros Hp. unfold updateProjectFiles; cbv zeta.
  rewrite fold_bump. simpl. rewrite failed_results, length_map.
  rewrite (length_filter_perm (succeeded upd) _ _ Hp),
          (length_filter_perm (changed upd) _ _ Hp).
  exact (succeeded_failed_count upd sfs).
Qed.

Lemma updateProjectFiles_accounting_witness :
  Permutation ["b.tsx"; "a.tsx"] ["a.tsx"; "b.tsx"] /\
  filesProcessed (updateProjectFiles false
     (fun p => if String.eqb p "a.tsx" then None else Some true)
     ["a.tsx"; "b.tsx"] ["b.tsx"; "a.tsx"]) +
  errors (updateProjectFiles false
     (fun p => if String.eqb p "a.tsx" then None else Some true)
     ["a.tsx"; "b.tsx"] ["b.tsx"; "a.tsx"]) = 2.
Proof.
  assert (Hp : Permutation ["b.tsx"; "a.tsx"] ["a.tsx"; "b.tsx"]) by apply perm_swap.
  split; [exact Hp|].
  exact (proj1 (updateProjectFiles_accounting false
     (fun p => if String.eqb p "a.tsx" then None else Some true)
     ["a.tsx"; "b.tsx"] ["b.tsx"; "a.tsx"] Hp)).
Defined.

End ProjectMore.
